(** * The metrics query client of [lib/utapi/utilities.js]

    A shallow embedding of [_listMetrics], [listMetrics] and [pushMetric],
    together with the parts of the JavaScript runtime they call
    ([Number.parseInt], [String.prototype.split], property assignment and
    enumeration on ordinary objects, [JSON.stringify], [JSON.parse]).

    Conventions.
    - A JavaScript string is a sequence of UTF-16 code units; it is a
      [list Z] here, and [js "..."] turns an ASCII literal into one.
    - A JavaScript number is a binary64 value, kept as sign, integral
      significand and binary exponent ([Number.t]); all rounding is done
      with exact integer arithmetic.
    - [process.exit] ends the process: nothing after it runs.  Effects
      (log entries, writes, the transport calls) are recorded in a trace. *)

From Stdlib Require Import ZArith List String Ascii Bool Lia.
Import ListNotations.

Set Warnings "-register-all".

Open Scope string_scope.
Open Scope list_scope.
Open Scope Z_scope.

(** ** Strings *)

Definition jsstring := list Z.

Definition js (s : string) : jsstring :=
  map (fun a => Z.of_nat (nat_of_ascii a)) (list_ascii_of_string s).

(** The double quote, the backslash and the comma as code units. *)
Definition dquote : Z := 34.
Definition backslash : Z := 92.
Definition comma : Z := 44.

Fixpoint jsstring_eqb (a b : jsstring) : bool :=
  match a, b with
  | [], [] => true
  | x :: a', y :: b' => (x =? y) && jsstring_eqb a' b'
  | _, _ => false
  end.

(** [Array.prototype.join] on an array of strings. *)
Fixpoint join (sep : jsstring) (l : list jsstring) : jsstring :=
  match l with
  | [] => []
  | [s] => s
  | s :: l' => s ++ sep ++ join sep l'
  end.

(** [String.prototype.split] with a separator of one code unit: the
    pieces between the occurrences of [sep], in order, empty ones kept;
    a string without [sep] (the empty string too) gives one piece. *)
Fixpoint split (sep : Z) (s : jsstring) : list jsstring :=
  match s with
  | [] => [[]]
  | c :: s' =>
      if c =? sep then [] :: split sep s'
      else match split sep s' with
           | [] => [[c]]
           | p :: ps => (c :: p) :: ps
           end
  end.

Definition count_occ_unit (sep : Z) (s : jsstring) : nat :=
  List.length (filter (fun c => c =? sep) s).

(** Decimal digits. *)
Definition is_digit (c : Z) : bool := (48 <=? c) && (c <=? 57).

Fixpoint uint_units (u : Decimal.uint) : jsstring :=
  match u with
  | Decimal.Nil => []
  | Decimal.D0 u' => 48 :: uint_units u'
  | Decimal.D1 u' => 49 :: uint_units u'
  | Decimal.D2 u' => 50 :: uint_units u'
  | Decimal.D3 u' => 51 :: uint_units u'
  | Decimal.D4 u' => 52 :: uint_units u'
  | Decimal.D5 u' => 53 :: uint_units u'
  | Decimal.D6 u' => 54 :: uint_units u'
  | Decimal.D7 u' => 55 :: uint_units u'
  | Decimal.D8 u' => 56 :: uint_units u'
  | Decimal.D9 u' => 57 :: uint_units u'
  end.

(** The decimal numeral of a natural number, without leading zeros. *)
Definition decimal_of (z : Z) : jsstring := uint_units (N.to_uint (Z.to_N z)).

(** ** Numbers

    A Number is a binary64 value.  [Fin neg m e] stands for
    [(-1)^neg * m * 2^e] with [0 <= m < 2^53] and [-1074 <= e <= 971],
    in the one form where [2^52 <= m] or [e = -1074]; both zeros are
    [Fin _ 0 (-1074)]. *)
Module Number.

Inductive t :=
| NaN
| Inf (neg : bool)
| Fin (neg : bool) (m e : Z).

Definition eqb (x y : t) : bool :=
  match x, y with
  | NaN, NaN => true
  | Inf a, Inf b => Bool.eqb a b
  | Fin a m e, Fin b m' e' => Bool.eqb a b && (m =? m') && (e =? e')
  | _, _ => false
  end.

(** [2^f <= n/d], for [f] of either sign. *)
Definition ratio_ge_pow2 (n d f : Z) : bool :=
  if 0 <=? f then d * 2 ^ f <=? n else d <=? n * 2 ^ (- f).

(** [num/den] rounded to the nearest integer, ties to even. *)
Definition round_half_even (num den : Z) : Z :=
  let q := num / den in
  let r := num mod den in
  match 2 * r ?= den with
  | Lt => q
  | Gt => q + 1
  | Eq => if Z.even q then q else q + 1
  end.

(** The Number nearest to [n/d] ([0 <= n], [0 < d]), ties to even,
    overflowing to an infinity. *)
Definition of_ratio (neg : bool) (n d : Z) : t :=
  if n =? 0 then Fin neg 0 (-1074)
  else
    let f := Z.log2 n - Z.log2 d in
    let lg := if ratio_ge_pow2 n d f then f else f - 1 in
    let e := Z.max (lg - 52) (-1074) in
    let m := if 0 <=? e then round_half_even n (d * 2 ^ e)
             else round_half_even (n * 2 ^ (- e)) d in
    let '(m, e) := if m =? 2 ^ 53 then (2 ^ 52, e + 1) else (m, e) in
    if 971 <? e then Inf neg else Fin neg m e.

Definition of_Z (z : Z) : t := of_ratio (z <? 0) (Z.abs z) 1.

(** The Number nearest to [s * 10^p]. *)
Definition of_decimal (neg : bool) (s p : Z) : t :=
  if 0 <=? p then of_ratio neg (s * 10 ^ p) 1
  else of_ratio neg s (10 ^ (- p)).

(** ToBoolean on a Number: false for NaN, +0 and -0. *)
Definition to_boolean (x : t) : bool :=
  match x with
  | NaN => false
  | Inf _ => true
  | Fin _ m _ => negb (m =? 0)
  end.

Definition is_finite (x : t) : bool :=
  match x with
  | Fin _ _ _ => true
  | _ => false
  end.

(** A finite Number as an integer multiple of [2^-1074]. *)
Definition scaled (neg : bool) (m e : Z) : Z :=
  (if neg then -1 else 1) * m * 2 ^ (e + 1074).

(** The relational operator [<=] on Numbers. *)
Definition leb (x y : t) : bool :=
  match x, y with
  | NaN, _ | _, NaN => false
  | Inf true, _ => true
  | _, Inf false => true
  | Inf false, _ => false
  | _, Inf true => false
  | Fin a m e, Fin b m' e' => scaled a m e <=? scaled b m' e'
  end.

(** [vn/vd < 10^n], for [n] of either sign. *)
Definition lt_pow10 (vn vd n : Z) : bool :=
  if 0 <=? n then vn <? vd * 10 ^ n else vn * 10 ^ (- n) <? vd.

(** The least [n >= n0] with [vn/vd < 10^n]. *)
Fixpoint find_exp10 (fuel : nat) (vn vd n : Z) : Z :=
  match fuel with
  | O => n
  | S fuel' =>
      if lt_pow10 vn vd n then n else find_exp10 fuel' vn vd (n + 1)
  end.

(** The shortest decimal [s * 10^(n-k)], [10^(k-1) <= s < 10^k], that
    rounds to the positive finite Number [m * 2^e = vn/vd]; among the
    decimals of that length the one nearest to the value.  The result
    is [(s, n, k)]; seventeen digits always suffice. *)
Fixpoint shortest (fuel : nat) (m e vn vd n0 k : Z) : Z * Z * Z :=
  let p := n0 - k in
  let wn := if 0 <=? p then vn else vn * 10 ^ (- p) in
  let wd := if 0 <=? p then vd * 10 ^ p else vd in
  let lo := wn / wd in
  let r := wn mod wd in
  let hi := if lo + 1 =? 10 ^ k then (10 ^ (k - 1), n0 + 1) else (lo + 1, n0) in
  let back (c : Z * Z) := eqb (of_decimal false (fst c) (snd c - k)) (Fin false m e) in
  let lo_ok := back (lo, n0) in
  let hi_ok := back hi in
  let lo_near :=
    match 2 * r ?= wd with
    | Lt => true
    | Gt => false
    | Eq => Z.even lo
    end in
  match fuel with
  | O => (lo, n0, k)
  | S fuel' =>
      if lo_ok && (lo_near || negb hi_ok) then (lo, n0, k)
      else if hi_ok then (fst hi, snd hi, k)
      else shortest fuel' m e vn vd n0 (k + 1)
  end.

Definition zeros (n : Z) : jsstring := repeat 48 (Z.to_nat n).

(** Number::toString for a positive finite Number, radix 10. *)
Definition to_string_pos (m e : Z) : jsstring :=
  let vn := if 0 <=? e then m * 2 ^ e else m in
  let vd := if 0 <=? e then 1 else 2 ^ (- e) in
  let n0 := find_exp10 640 vn vd (-324) in
  let '(s, n, k) := shortest 17 m e vn vd n0 1 in
  let ds := decimal_of s in
  if (k <=? n) && (n <=? 21) then ds ++ zeros (n - k)
  else if (0 <? n) && (n <=? 21) then
    firstn (Z.to_nat n) ds ++ js "." ++ skipn (Z.to_nat n) ds
  else if (-6 <? n) && (n <=? 0) then js "0." ++ zeros (- n) ++ ds
  else
    let ex := js (if n - 1 <? 0 then "-" else "+") ++ decimal_of (Z.abs (n - 1)) in
    if k =? 1 then ds ++ js "e" ++ ex
    else firstn 1 ds ++ js "." ++ skipn 1 ds ++ js "e" ++ ex.

Definition to_string (x : t) : jsstring :=
  match x with
  | NaN => js "NaN"
  | Inf neg => js (if neg then "-Infinity" else "Infinity")
  | Fin neg m e =>
      if m =? 0 then js "0"
      else (if neg then js "-" else []) ++ to_string_pos m e
  end.

(** StrWhiteSpaceChar: white space and line terminators. *)
Definition is_white_space (c : Z) : bool :=
  (c =? 9) || (c =? 10) || (c =? 11) || (c =? 12) || (c =? 13) || (c =? 32)
  || (c =? 160) || (c =? 5760) || ((8192 <=? c) && (c <=? 8202))
  || (c =? 8232) || (c =? 8233) || (c =? 8239) || (c =? 8287)
  || (c =? 12288) || (c =? 65279).

Fixpoint trim_start (s : jsstring) : jsstring :=
  match s with
  | [] => []
  | c :: s' => if is_white_space c then trim_start s' else s
  end.

Fixpoint digits_prefix (s : jsstring) : jsstring :=
  match s with
  | [] => []
  | c :: s' => if is_digit c then c :: digits_prefix s' else []
  end.

Definition digits_value (ds : jsstring) : Z :=
  fold_left (fun acc d => 10 * acc + (d - 48)) ds 0.

(** What is left of [s] once leading white space and one sign are gone. *)
Definition unsigned_part (s : jsstring) : jsstring :=
  match trim_start s with
  | c :: r => if (c =? 43) || (c =? 45) then r else c :: r
  | [] => []
  end.

Definition is_negative (s : jsstring) : bool :=
  match trim_start s with
  | c :: _ => c =? 45
  | [] => false
  end.

(** [Number.parseInt(s, 10)]: leading white space is skipped, one sign
    is read, then the longest run of decimal digits; no digit gives
    NaN.  The integer read is rounded to the nearest Number, as V8 does
    (ECMAScript lets an implementation approximate past the twentieth
    significant digit). *)
Definition parseInt (s : jsstring) : t :=
  match digits_prefix (unsigned_part s) with
  | [] => NaN
  | ds => of_ratio (is_negative s) (digits_value ds) 1
  end.

End Number.

(** ** Ordinary objects

    The own properties of an object, in the order of their creation.
    Keys are unique. *)
Section Objects.

Context {V : Type}.

Definition obj := list (jsstring * V).

Fixpoint obj_get (k : jsstring) (o : obj) : option V :=
  match o with
  | [] => None
  | (k', v) :: o' => if jsstring_eqb k' k then Some v else obj_get k o'
  end.

Definition obj_has (k : jsstring) (o : obj) : bool :=
  match obj_get k o with
  | Some _ => true
  | None => false
  end.

(** CreateDataProperty: an existing property keeps its place and takes
    the new value, a new one goes last. *)
Fixpoint obj_define (k : jsstring) (v : V) (o : obj) : obj :=
  match o with
  | [] => [(k, v)]
  | (k', v') :: o' =>
      if jsstring_eqb k' k then (k, v) :: o' else (k', v') :: obj_define k v o'
  end.

(** The assignment [o[k] = v] on an object whose prototype is
    [Object.prototype].  The key [__proto__] reaches the inherited
    accessor, which creates no own property. *)
Definition obj_assign (k : jsstring) (v : V) (o : obj) : obj :=
  if jsstring_eqb k (js "__proto__") && negb (obj_has k o) then o
  else obj_define k v o.

(** An array index is the canonical numeral of an integer in
    [0, 2^32 - 2]. *)
Definition array_index (k : jsstring) : option Z :=
  match k with
  | [] => None
  | c :: k' =>
      if forallb is_digit k && ((negb (c =? 48)) || (List.length k' =? 0)%nat) then
        let v := fold_left (fun acc d => 10 * acc + (d - 48)) k 0 in
        if v <=? 4294967294 then Some v else None
      else None
  end.

Fixpoint insert_index (i : Z) (p : jsstring * V) (l : list (Z * (jsstring * V)))
  : list (Z * (jsstring * V)) :=
  match l with
  | [] => [(i, p)]
  | (j, q) :: l' =>
      if i <? j then (i, p) :: l else (j, q) :: insert_index i p l'
  end.

Fixpoint index_entries (o : obj) : list (Z * (jsstring * V)) :=
  match o with
  | [] => []
  | p :: o' =>
      match array_index (fst p) with
      | Some i => insert_index i p (index_entries o')
      | None => index_entries o'
      end
  end.

Definition named_entries (o : obj) : obj :=
  filter (fun p => match array_index (fst p) with Some _ => false | None => true end) o.

(** OrdinaryOwnPropertyKeys: array indices in ascending order, then the
    other keys in the order of their creation. *)
Definition own_entries (o : obj) : obj :=
  map snd (index_entries o) ++ named_entries o.

Definition own_keys (o : obj) : list jsstring := map fst (own_entries o).

End Objects.

Arguments obj : clear implicits.

(** ** JSON values and [JSON.stringify] *)

Inductive json :=
| JNull
| JBool (b : bool)
| JNum (x : Number.t)
| JStr (s : jsstring)
| JArr (items : list json)
| JObj (props : obj json).

Definition hex_digit (d : Z) : Z := if d <? 10 then 48 + d else 87 + d.

(** [\uXXXX] with lower-case hexadecimal digits. *)
Definition unicode_escape (c : Z) : jsstring :=
  [backslash; 117; hex_digit (c / 4096 mod 16); hex_digit (c / 256 mod 16);
   hex_digit (c / 16 mod 16); hex_digit (c mod 16)].

Definition is_leading_surrogate (c : Z) : bool := (55296 <=? c) && (c <=? 56319).
Definition is_trailing_surrogate (c : Z) : bool := (56320 <=? c) && (c <=? 57343).

Definition quote_unit (c : Z) : jsstring :=
  if c =? 8 then [backslash; 98]
  else if c =? 9 then [backslash; 116]
  else if c =? 10 then [backslash; 110]
  else if c =? 12 then [backslash; 102]
  else if c =? 13 then [backslash; 114]
  else if c =? dquote then [backslash; dquote]
  else if c =? backslash then [backslash; backslash]
  else if c <? 32 then unicode_escape c
  else if is_leading_surrogate c || is_trailing_surrogate c then unicode_escape c
  else [c].

(** The characters of QuoteJSONString (ECMAScript 2019 and later): a
    surrogate pair is kept, a lone surrogate is escaped. *)
Fixpoint quote_units (s : jsstring) : jsstring :=
  match s with
  | [] => []
  | c :: s' =>
      match s' with
      | d :: s'' =>
          if is_leading_surrogate c && is_trailing_surrogate d
          then c :: d :: quote_units s''
          else quote_unit c ++ quote_units s'
      | [] => quote_unit c
      end
  end.

Definition quote (s : jsstring) : jsstring := [dquote] ++ quote_units s ++ [dquote].

Definition number_text (x : Number.t) : jsstring :=
  if Number.is_finite x then Number.to_string x else js "null".

(** [JSON.stringify(v)]. *)
Fixpoint JSON_stringify (v : json) : jsstring :=
  match v with
  | JNull => js "null"
  | JBool b => js (if b then "true" else "false")
  | JNum x => number_text x
  | JStr s => quote s
  | JArr items => js "[" ++ join (js ",") (map JSON_stringify items) ++ js "]"
  | JObj props =>
      let parts := map (fun p => (fst p, JSON_stringify (snd p))) props in
      js "{"
      ++ join (js ",") (map (fun p => quote (fst p) ++ js ":" ++ snd p) (own_entries parts))
      ++ js "}"
  end.

(** [JSON.stringify(v, null, 2)]; [indent] is the indentation of the
    line the value starts on. *)
Fixpoint stringify_indented (indent : jsstring) (v : json) : jsstring :=
  let inner := indent ++ js "  " in
  let sep := js "," ++ [10] ++ inner in
  match v with
  | JArr [] => js "[]"
  | JArr items =>
      js "[" ++ [10] ++ inner
      ++ join sep (map (stringify_indented inner) items)
      ++ [10] ++ indent ++ js "]"
  | JObj [] => js "{}"
  | JObj props =>
      let parts := map (fun p => (fst p, stringify_indented inner (snd p))) props in
      js "{" ++ [10] ++ inner
      ++ join sep (map (fun p => quote (fst p) ++ js ": " ++ snd p) (own_entries parts))
      ++ [10] ++ indent ++ js "}"
  | _ => JSON_stringify v
  end.

Definition JSON_stringify_pretty (v : json) : jsstring := stringify_indented [] v.

(** ** [JSON.parse]

    The JSON grammar is read in one pass over the text by a pushdown
    recogniser: [tok] is the token being read, [pos] the place in the
    grammar together with the stack of open arrays and objects. *)
Module JSONParser.

Inductive frame :=
| InArr (done : list json)
| InObj (props : obj json) (key : jsstring).

Inductive pos :=
| PValue (ctx : list frame)
| PFirstElem (ctx : list frame)
| PKey (first : bool) (props : obj json) (ctx : list frame)
| PColon (props : obj json) (key : jsstring) (ctx : list frame)
| PAfterElem (done : list json) (ctx : list frame)
| PAfterMember (props : obj json) (ctx : list frame)
| PDone (v : json).

Inductive numst :=
| NMinus | NZero | NInt | NDot | NFrac | NExp | NExpSign | NExpDigits.

Record numacc := {
  neg : bool;       (* a leading minus sign was read *)
  mant : Z;         (* the digits before and after the point, as an integer *)
  fracd : Z;        (* how many of them stand after the point *)
  eneg : bool;      (* the exponent has a minus sign *)
  expv : Z          (* the exponent's digits *)
}.

Inductive tok :=
| TNone
| TStr (acc : jsstring)
| TEsc (acc : jsstring)
| THex (acc : jsstring) (more : nat) (v : Z)
| TLit (rest : jsstring) (v : json)
| TNum (st : numst) (a : numacc).

Definition state := (pos * tok)%type.

(** A finished value goes to the innermost open array or object. *)
Definition plug (v : json) (ctx : list frame) : pos :=
  match ctx with
  | [] => PDone v
  | InArr done :: ctx' => PAfterElem (v :: done) ctx'
  | InObj props key :: ctx' => PAfterMember (obj_define key v props) ctx'
  end.

Definition is_json_space (c : Z) : bool :=
  (c =? 9) || (c =? 10) || (c =? 13) || (c =? 32).

Definition hex_value (c : Z) : option Z :=
  if is_digit c then Some (c - 48)
  else if (97 <=? c) && (c <=? 102) then Some (c - 87)
  else if (65 <=? c) && (c <=? 70) then Some (c - 55)
  else None.

Definition escape_value (c : Z) : option Z :=
  if c =? dquote then Some dquote
  else if c =? backslash then Some backslash
  else if c =? 47 then Some 47
  else if c =? 98 then Some 8
  else if c =? 102 then Some 12
  else if c =? 110 then Some 10
  else if c =? 114 then Some 13
  else if c =? 116 then Some 9
  else None.

Definition num0 (n : bool) (d : Z) : numacc :=
  {| neg := n; mant := d; fracd := 0; eneg := false; expv := 0 |}.

Definition is_exp_mark (c : Z) : bool := (c =? 101) || (c =? 69).

(** One more character of a number, when it can take one. *)
Definition num_step (st : numst) (a : numacc) (c : Z) : option (numst * numacc) :=
  let int_digit := {| neg := neg a; mant := 10 * mant a + (c - 48); fracd := fracd a;
                      eneg := eneg a; expv := expv a |} in
  let frac_digit := {| neg := neg a; mant := 10 * mant a + (c - 48); fracd := fracd a + 1;
                       eneg := eneg a; expv := expv a |} in
  let exp_digit := {| neg := neg a; mant := mant a; fracd := fracd a;
                      eneg := eneg a; expv := 10 * expv a + (c - 48) |} in
  let exp_sign := {| neg := neg a; mant := mant a; fracd := fracd a;
                     eneg := c =? 45; expv := expv a |} in
  match st with
  | NMinus =>
      if c =? 48 then Some (NZero, a)
      else if is_digit c then Some (NInt, int_digit)
      else None
  | NZero =>
      if c =? 46 then Some (NDot, a)
      else if is_exp_mark c then Some (NExp, a)
      else None
  | NInt =>
      if is_digit c then Some (NInt, int_digit)
      else if c =? 46 then Some (NDot, a)
      else if is_exp_mark c then Some (NExp, a)
      else None
  | NDot => if is_digit c then Some (NFrac, frac_digit) else None
  | NFrac =>
      if is_digit c then Some (NFrac, frac_digit)
      else if is_exp_mark c then Some (NExp, a)
      else None
  | NExp =>
      if (c =? 43) || (c =? 45) then Some (NExpSign, exp_sign)
      else if is_digit c then Some (NExpDigits, exp_digit)
      else None
  | NExpSign => if is_digit c then Some (NExpDigits, exp_digit) else None
  | NExpDigits => if is_digit c then Some (NExpDigits, exp_digit) else None
  end.

(** The states in which the characters read so far form a number. *)
Definition num_done (st : numst) : bool :=
  match st with
  | NZero | NInt | NFrac | NExpDigits => true
  | _ => false
  end.

Definition num_value (a : numacc) : Number.t :=
  Number.of_decimal (neg a) (mant a) ((if eneg a then - expv a else expv a) - fracd a).

Definition start_value (ctx : list frame) (c : Z) : option state :=
  if c =? 123 then Some (PKey true [] ctx, TNone)
  else if c =? 91 then Some (PFirstElem ctx, TNone)
  else if c =? dquote then Some (PValue ctx, TStr [])
  else if c =? 45 then Some (PValue ctx, TNum NMinus (num0 true 0))
  else if c =? 48 then Some (PValue ctx, TNum NZero (num0 false 0))
  else if is_digit c then Some (PValue ctx, TNum NInt (num0 false (c - 48)))
  else if c =? 116 then Some (PValue ctx, TLit (js "rue") (JBool true))
  else if c =? 102 then Some (PValue ctx, TLit (js "alse") (JBool false))
  else if c =? 110 then Some (PValue ctx, TLit (js "ull") JNull)
  else None.

(** A character between tokens. *)
Definition step_idle (p : pos) (c : Z) : option state :=
  if is_json_space c then Some (p, TNone)
  else
    match p with
    | PValue ctx => start_value ctx c
    | PFirstElem ctx =>
        if c =? 93 then Some (plug (JArr []) ctx, TNone)
        else start_value (InArr [] :: ctx) c
    | PKey first props ctx =>
        if c =? dquote then Some (p, TStr [])
        else if first && (c =? 125) then Some (plug (JObj props) ctx, TNone)
        else None
    | PColon props key ctx =>
        if c =? 58 then Some (PValue (InObj props key :: ctx), TNone) else None
    | PAfterElem done ctx =>
        if c =? comma then Some (PValue (InArr done :: ctx), TNone)
        else if c =? 93 then Some (plug (JArr (rev done)) ctx, TNone)
        else None
    | PAfterMember props ctx =>
        if c =? comma then Some (PKey false props ctx, TNone)
        else if c =? 125 then Some (plug (JObj props) ctx, TNone)
        else None
    | PDone _ => None
    end.

(** A string literal is a member's key or a value, by its place. *)
Definition end_string (p : pos) (s : jsstring) : option state :=
  match p with
  | PKey _ props ctx => Some (PColon props s ctx, TNone)
  | PValue ctx => Some (plug (JStr s) ctx, TNone)
  | _ => None
  end.

Definition end_value (p : pos) (v : json) : option pos :=
  match p with
  | PValue ctx => Some (plug v ctx)
  | _ => None
  end.

Definition step (st : state) (c : Z) : option state :=
  let '(p, t) := st in
  match t with
  | TNone => step_idle p c
  | TStr acc =>
      if c =? dquote then end_string p (rev acc)
      else if c =? backslash then Some (p, TEsc acc)
      else if c <? 32 then None
      else Some (p, TStr (c :: acc))
  | TEsc acc =>
      if c =? 117 then Some (p, THex acc 4 0)
      else match escape_value c with
           | Some u => Some (p, TStr (u :: acc))
           | None => None
           end
  | THex acc more v =>
      match hex_value c, more with
      | Some h, 1%nat => Some (p, TStr ((16 * v + h) :: acc))
      | Some h, S more' => Some (p, THex acc more' (16 * v + h))
      | _, _ => None
      end
  | TLit rest v =>
      match rest with
      | [r] => if c =? r then option_map (fun p' => (p', TNone)) (end_value p v) else None
      | r :: rest' => if c =? r then Some (p, TLit rest' v) else None
      | [] => None
      end
  | TNum ns a =>
      match num_step ns a c with
      | Some (ns', a') => Some (p, TNum ns' a')
      | None =>
          if num_done ns then
            match end_value p (JNum (num_value a)) with
            | Some p' => step_idle p' c
            | None => None
            end
          else None
      end
  end.

(** The end of the text: one complete value must have been read. *)
Definition finish (st : state) : option json :=
  let '(p, t) := st in
  let p' := match t with
            | TNone => Some p
            | TNum ns a => if num_done ns then end_value p (JNum (num_value a)) else None
            | _ => None
            end in
  match p' with
  | Some (PDone v) => Some v
  | _ => None
  end.

Fixpoint run (st : state) (s : jsstring) : option json :=
  match s with
  | [] => finish st
  | c :: s' =>
      match step st c with
      | Some st' => run st' s'
      | None => None
      end
  end.

End JSONParser.

(** [JSON.parse(text)]: the value, or [None] where it throws a
    SyntaxError. *)
Definition JSON_parse (text : jsstring) : option json :=
  JSONParser.run (JSONParser.PValue [], JSONParser.TNone) text.

(** ** Effects

    What the program does to the outside is a trace of events; a
    computation ends by returning, by [process.exit] or by an exception
    nobody catches. *)

Inductive level := Info | Error.

(** The values the program hands to the logger next to a message. *)
Inductive logval :=
| LStatus (code : Z)            (* response.statusCode *)
| LHeaders (h : obj jsstring)   (* response.headers *)
| LSignedHeaders                (* request._headers, as the signer left them *)
| LBody (v : json).             (* the parsed response body *)

Module Options.
(** The options object given to [transport.request]. *)
Record t := {
  host : option jsstring;
  port : option jsstring;
  method : jsstring;
  path : jsstring;
  headers : obj jsstring;
  rejectUnauthorized : bool
}.
End Options.

Inductive event :=
| Log (lv : level) (msg : jsstring) (data : obj logval)
| OutputHelp
| StdoutWrite (s : jsstring)
| TransportRequest (ssl : bool) (options : Options.t)
| GenerateV4Headers (data : jsstring) (accessKey secretKey : option jsstring)
                    (service : jsstring)
| RequestWrite (body : jsstring)
| RequestEnd.

Inductive error := SyntaxError | TypeError.

Inductive outcome (A : Type) :=
| Return (a : A)
| Exit (code : Z)
| Throw (err : error).

Arguments Return {A} a.
Arguments Exit {A} code.
Arguments Throw {A} err.

Definition M (A : Type) : Type := (list event * outcome A)%type.

Definition ret {A} (a : A) : M A := ([], Return a).

Definition bind {A B} (m : M A) (k : A -> M B) : M B :=
  match m with
  | (tr, Return a) => let '(tr', r) := k a in (tr ++ tr', r)
  | (tr, Exit code) => (tr, Exit code)
  | (tr, Throw err) => (tr, Throw err)
  end.

Notation "x <- m ;; k" := (bind m (fun x => k))
  (at level 61, m at next level, right associativity).
Notation "m ;; k" := (bind m (fun _ => k))
  (at level 61, right associativity).

Definition emit (e : event) : M unit := ([e], Return tt).
Definition process_exit {A} (code : Z) : M A := ([], Exit code).
Definition throw {A} (err : error) : M A := ([], Throw err).
Definition when (b : bool) (m : M unit) : M unit := if b then m else ret tt.

(** [Array.prototype.forEach] with a callback that may end the process. *)
Fixpoint forEach {A} (l : list A) (f : A -> M unit) : M unit :=
  match l with
  | [] => ret tt
  | x :: l' => f x ;; forEach l' f
  end.

Definition trace {A} (m : M A) : list event := fst m.
Definition result {A} (m : M A) : outcome A := snd m.

(** The bodies written to the request, in order. *)
Fixpoint written_bodies (tr : list event) : list jsstring :=
  match tr with
  | [] => []
  | RequestWrite body :: tr' => body :: written_bodies tr'
  | _ :: tr' => written_bodies tr'
  end.

(** Whether the transport was touched at all. *)
Definition is_network_event (e : event) : bool :=
  match e with
  | TransportRequest _ _ | GenerateV4Headers _ _ _ _ | RequestWrite _ | RequestEnd => true
  | _ => false
  end.

(** ** [_listMetrics] *)

Definition _listMetrics (host port : option jsstring) (metric : jsstring)
    (metricType : list jsstring) (timeRange : list Number.t)
    (accessKey secretKey : option jsstring) (verbose recent ssl : bool) : M unit :=
  let listAction := if recent then js "ListRecentMetrics" else js "ListMetrics" in
  let options := {|
    Options.host := host;
    Options.port := port;
    Options.method := js "POST";
    Options.path := js "/" ++ metric ++ js "?Action=" ++ listAction;
    Options.headers := [(js "content-type", js "application/json");
                        (js "cache-control", js "no-cache")];
    Options.rejectUnauthorized := false |} in
  emit (TransportRequest ssl options) ;;
  emit (GenerateV4Headers [] accessKey secretKey (js "s3")) ;;
  when verbose (emit (Log Info (js "request headers") [(js "headers", LSignedHeaders)])) ;;
  (* If recent listing, we do not provide `timeRange` in the request *)
  let requestObj :=
    if recent then [] else [(js "timeRange", JArr (map JNum timeRange))] in
  let requestObj := obj_assign metric (JArr (map JStr metricType)) requestObj in
  emit (RequestWrite (JSON_stringify (JObj requestObj))) ;;
  emit RequestEnd.

(** The response, once its stream has ended: the status line, the
    headers and the chunks of the body in the order they came. *)
Record response := {
  statusCode : Z;
  responseHeaders : obj jsstring;
  chunks : list jsstring
}.

(** The callback [_listMetrics] gives to [transport.request], run to the
    end of its ['end'] handler. *)
Definition on_response (verbose : bool) (r : response) : M unit :=
  when verbose
    (emit (Log Info (js "response status code") [(js "statusCode", LStatus (statusCode r))]) ;;
     emit (Log Info (js "response headers") [(js "headers", LHeaders (responseHeaders r))])) ;;
  responseBody <- match JSON_parse (join [] (chunks r)) with
                  | Some v => ret v
                  | None => throw SyntaxError
                  end ;;
  if (200 <=? statusCode r) && (statusCode r <? 300) then
    emit (StdoutWrite (JSON_stringify_pretty responseBody)) ;;
    emit (StdoutWrite [10]) ;;
    process_exit 0
  else
    emit (Log Error (js "request failed with HTTP Status ")
            [(js "statusCode", LStatus (statusCode r)); (js "body", LBody responseBody)]) ;;
    process_exit 1.

(** ** [listMetrics] *)

(** A value that is a string or [undefined]. *)
Definition truthy (v : option jsstring) : bool :=
  match v with
  | Some (_ :: _) => true
  | _ => false
  end.

Definition ToString (v : option jsstring) : jsstring :=
  match v with
  | Some s => s
  | None => js "undefined"
  end.

(** [v === s] for a string [s]. *)
Definition strict_eq (v : option jsstring) (s : jsstring) : bool :=
  match v with
  | Some x => jsstring_eqb x s
  | None => false
  end.

Module Commander.
(** The options on the [commander] object after [parse(process.argv)]:
    an option with an argument is a string or [undefined], a flag is
    [true] or [undefined]. *)
Record t := {
  host : option jsstring;
  port : option jsstring;
  accessKey : option jsstring;
  secretKey : option jsstring;
  metric : option jsstring;
  buckets : option jsstring;
  accounts : option jsstring;
  start : option jsstring;
  end_ : option jsstring;
  verbose : bool;
  recent : bool;
  ssl : bool
}.

(** [commander[k]] for the two keys [listMetrics] reads this way,
    ['buckets'] and ['accounts']; the other properties of the object are
    not part of the model. *)
Definition get (c : t) (k : jsstring) : option jsstring :=
  if jsstring_eqb k (js "buckets") then buckets c
  else if jsstring_eqb k (js "accounts") then accounts c
  else None.

(** The same options with other values for [--start] and [--end]. *)
Definition with_range (c : t) (s e : option jsstring) : t :=
  {| host := host c; port := port c; accessKey := accessKey c;
     secretKey := secretKey c; metric := metric c; buckets := buckets c;
     accounts := accounts c; start := s; end_ := e;
     verbose := verbose c; recent := recent c; ssl := ssl c |}.
End Commander.

Module QueryRequest.
(** The arguments [listMetrics] passes to [_listMetrics]. *)
Record t := {
  host : option jsstring;
  port : option jsstring;
  metric : jsstring;
  resources : list jsstring;
  timeRange : list Number.t;
  accessKey : option jsstring;
  secretKey : option jsstring;
  verbose : bool;
  recent : bool;
  ssl : bool
}.
End QueryRequest.

(** [logger.error(msg); commander.outputHelp(); process.exit(1);] *)
Definition reject {A} (msg : jsstring) : M A :=
  emit (Log Error msg []) ;; emit OutputHelp ;; process_exit 1.

(** [requiredOptions[option]]. *)
Definition lookup (o : obj (option jsstring)) (k : jsstring) : option jsstring :=
  match obj_get k o with
  | Some v => v
  | None => None
  end.

(** [Object.keys(requiredOptions).forEach(option => { if
    (!requiredOptions[option]) { ...; process.exit(1); } })]. *)
Definition requireAll (requiredOptions : obj (option jsstring)) : M unit :=
  forEach (own_keys requiredOptions) (fun option =>
    when (negb (truthy (lookup requiredOptions option)))
      (reject (js "missing required option: " ++ option))).

(** The first part of [listMetrics], up to the end of the [forEach] over
    the required options; it yields [metric]. *)
Definition checkOptions (metricType : option jsstring) (c : Commander.t) : M jsstring :=
  let requiredOptions :=
    [(js "host", Commander.host c); (js "port", Commander.port c);
     (js "accessKey", Commander.accessKey c); (js "secretKey", Commander.secretKey c)] in
  (* If not old style bucket metrics, we require usage of the metric option *)
  requiredOptions <-
    (if negb (strict_eq metricType (js "buckets")) then
       let requiredOptions := obj_assign (js "metric") (Commander.metric c) requiredOptions in
       (* Only allow 'buckets' or 'accounts' as the metric *)
       if negb (strict_eq (Commander.metric c) (js "buckets"))
          && negb (strict_eq (Commander.metric c) (js "accounts"))
       then reject (js "metric must be buckets or accounts")
       else ret requiredOptions
     else ret requiredOptions) ;;
  let metric :=
    if strict_eq metricType (js "buckets") then js "buckets"
    else ToString (Commander.metric c) in
  let requiredOptions := obj_assign metric (Commander.get c metric) requiredOptions in
  (* If not recent listing, the start option must be provided *)
  let requiredOptions :=
    if negb (Commander.recent c)
    then obj_assign (js "start") (Commander.start c) requiredOptions
    else requiredOptions in
  requireAll requiredOptions ;;
  ret metric.

(** The second part: [timeRange]. *)
Definition parseTimeRange (c : Commander.t) : M (list Number.t) :=
  let timeRange := [] in
  (* If recent listing, we disregard any start or end option given *)
  if negb (Commander.recent c) then
    let numStart := Number.parseInt (ToString (Commander.start c)) in
    if negb (Number.to_boolean numStart) then reject (js "start must be a number")
    else
      let timeRange := timeRange ++ [numStart] in
      if truthy (Commander.end_ c) then
        let numEnd := Number.parseInt (ToString (Commander.end_ c)) in
        if negb (Number.to_boolean numEnd) then reject (js "end must be a number")
        else ret (timeRange ++ [numEnd])
      else ret timeRange
  else ret timeRange.

(** Everything before the call of [_listMetrics]: its arguments. *)
Definition buildQueryRequest (metricType : option jsstring) (c : Commander.t)
  : M QueryRequest.t :=
  metric <- checkOptions metricType c ;;
  timeRange <- parseTimeRange c ;;
  resources <- match Commander.get c metric with
               | Some s => ret (split comma s)
               | None => throw TypeError
               end ;;
  ret {| QueryRequest.host := Commander.host c;
         QueryRequest.port := Commander.port c;
         QueryRequest.metric := metric;
         QueryRequest.resources := resources;
         QueryRequest.timeRange := timeRange;
         QueryRequest.accessKey := Commander.accessKey c;
         QueryRequest.secretKey := Commander.secretKey c;
         QueryRequest.verbose := Commander.verbose c;
         QueryRequest.recent := Commander.recent c;
         QueryRequest.ssl := Commander.ssl c |}.

Definition send (q : QueryRequest.t) : M unit :=
  _listMetrics (QueryRequest.host q) (QueryRequest.port q) (QueryRequest.metric q)
    (QueryRequest.resources q) (QueryRequest.timeRange q)
    (QueryRequest.accessKey q) (QueryRequest.secretKey q)
    (QueryRequest.verbose q) (QueryRequest.recent q) (QueryRequest.ssl q).

Definition listMetrics (metricType : option jsstring) (c : Commander.t) : M unit :=
  q <- buildQueryRequest metricType c ;;
  send q.

(** ** [pushMetric] *)

(** The values a field of [metricObj] can hold. *)
Inductive value :=
| VUndefined
| VNull
| VNumber (x : Number.t)
| VString (s : jsstring).

(** The two collaborators of [pushMetric], by what it calls on them. *)
Record AuthInfo := { getCanonicalID : value }.
Record Logger := { getSerializedUids : jsstring }.

Module MetricObj.
Record t := {
  authInfo : option AuthInfo;
  bucket : value;
  byteLength : value;
  newByteLength : value;
  oldByteLength : value;
  numberOfObjects : value
}.
End MetricObj.

Module Payload.
(** The third argument of [utapi.pushMetric]. *)
Record t := {
  bucket : value;
  accountId : value;
  byteLength : value;
  newByteLength : value;
  oldByteLength : value;
  numberOfObjects : value
}.
End Payload.

Section PushMetric.

(** The Utapi client's [pushMetric] and what it returns. *)
Variable R : Type.
Variable utapi_pushMetric : jsstring -> jsstring -> Payload.t -> R.

Definition pushMetric (action : jsstring) (log : Logger) (metricObj : MetricObj.t) : R :=
  let accountId := VUndefined in
  (* If `authInfo` is included by the API, get the account's canonical ID *)
  let accountId :=
    match MetricObj.authInfo metricObj with
    | Some authInfo => getCanonicalID authInfo
    | None => accountId
    end in
  utapi_pushMetric action (getSerializedUids log)
    {| Payload.bucket := MetricObj.bucket metricObj;
       Payload.accountId := accountId;
       Payload.byteLength := MetricObj.byteLength metricObj;
       Payload.newByteLength := MetricObj.newByteLength metricObj;
       Payload.oldByteLength := MetricObj.oldByteLength metricObj;
       Payload.numberOfObjects := MetricObj.numberOfObjects metricObj |}.

End PushMetric.

(** ** The checks of [listMetrics], read off as functions

    [chosen_metric] is the metric kind the invocation asks for, when it
    is an allowed one; [required] lists the options that must be present,
    in the order [requiredOptions] enumerates them; [first_missing] finds
    the first one that is not. *)

Definition chosen_metric (metricType : option jsstring) (c : Commander.t) : option jsstring :=
  if strict_eq metricType (js "buckets") then Some (js "buckets")
  else if strict_eq (Commander.metric c) (js "buckets") then Some (js "buckets")
  else if strict_eq (Commander.metric c) (js "accounts") then Some (js "accounts")
  else None.

Definition required (metricType : option jsstring) (c : Commander.t) (m : jsstring)
  : obj (option jsstring) :=
  [(js "host", Commander.host c); (js "port", Commander.port c);
   (js "accessKey", Commander.accessKey c); (js "secretKey", Commander.secretKey c)]
  ++ (if strict_eq metricType (js "buckets") then [] else [(js "metric", Commander.metric c)])
  ++ [(m, Commander.get c m)]
  ++ (if Commander.recent c then [] else [(js "start", Commander.start c)]).

Fixpoint first_missing (o : obj (option jsstring)) : option jsstring :=
  match o with
  | [] => None
  | (k, v) :: o' => if truthy v then first_missing o' else Some k
  end.

(** An ASCII literal between double quotes. *)
Definition quoted (s : string) : jsstring := [dquote] ++ js s ++ [dquote].

(** The data-model invariant of a QueryRequest, as the specification
    words it. *)
Definition QueryRequest_invariant (q : QueryRequest.t) : Prop :=
  QueryRequest.resources q <> []
  /\ (QueryRequest.recent q = true -> QueryRequest.timeRange q = [])
  /\ (QueryRequest.recent q = false ->
      (List.length (QueryRequest.timeRange q) = 1%nat
       \/ List.length (QueryRequest.timeRange q) = 2%nat)
      /\ forall s e, QueryRequest.timeRange q = [s; e] -> Number.leb s e = true).

(** What the specification says of a completed response, for every
    response. *)
Definition response_contract (verbose : bool) (r : response) : Prop :=
  if (200 <=? statusCode r) && (statusCode r <? 300) then
    exists v tr,
      on_response verbose r
      = (tr ++ [StdoutWrite (JSON_stringify_pretty v); StdoutWrite [10]], Exit 0)
  else
    exists v tr,
      on_response verbose r
      = (tr ++ [Log Error (js "request failed with HTTP Status ")
                  [(js "statusCode", LStatus (statusCode r)); (js "body", LBody v)]],
         Exit 1).

(** The test [listMetrics] puts on [numStart] and [numEnd]: the text
    parses to a Number that is neither NaN nor zero. *)
Definition parses (v : option jsstring) : bool :=
  Number.to_boolean (Number.parseInt (ToString v)).

(** What verbose mode logs when the response arrives. *)
Definition verbose_log (verbose : bool) (r : response) : list event :=
  if verbose then
    [Log Info (js "response status code") [(js "statusCode", LStatus (statusCode r))];
     Log Info (js "response headers") [(js "headers", LHeaders (responseHeaders r))]]
  else [].

(** The code units of a string are 16-bit. *)
Definition code_unit (c : Z) : Prop := 0 <= c < 65536.

(** ** Sample invocations and responses *)

Definition example_options : Commander.t :=
  {| Commander.host := Some (js "localhost");
     Commander.port := Some (js "8100");
     Commander.accessKey := Some (js "accessKey1");
     Commander.secretKey := Some (js "verySecretKey1");
     Commander.metric := Some (js "buckets");
     Commander.buckets := Some (js "b1,b2");
     Commander.accounts := None;
     Commander.start := Some (js "100");
     Commander.end_ := Some (js "200");
     Commander.verbose := false;
     Commander.recent := false;
     Commander.ssl := false |}.

Definition recent_options : Commander.t :=
  {| Commander.host := Some (js "localhost");
     Commander.port := Some (js "8100");
     Commander.accessKey := Some (js "accessKey1");
     Commander.secretKey := Some (js "verySecretKey1");
     Commander.metric := Some (js "accounts");
     Commander.buckets := None;
     Commander.accounts := Some (js "a,,b");
     Commander.start := Some (js "soon");
     Commander.end_ := Some (js "0");
     Commander.verbose := true;
     Commander.recent := true;
     Commander.ssl := true |}.

Definition unknown_metric_options : Commander.t :=
  {| Commander.host := Some (js "localhost");
     Commander.port := Some (js "8100");
     Commander.accessKey := Some (js "accessKey1");
     Commander.secretKey := Some (js "verySecretKey1");
     Commander.metric := Some (js "objects");
     Commander.buckets := Some (js "b1");
     Commander.accounts := None;
     Commander.start := Some (js "100");
     Commander.end_ := None;
     Commander.verbose := false;
     Commander.recent := false;
     Commander.ssl := false |}.

Definition descending_options : Commander.t :=
  Commander.with_range example_options (Some (js "200")) (Some (js "100")).

Definition zero_start_options : Commander.t :=
  Commander.with_range example_options (Some (js "0")) None.

Definition zero_end_options : Commander.t :=
  Commander.with_range example_options (Some (js "100")) (Some (js "0")).

(** What [listMetrics] hands to [_listMetrics] for [descending_options]. *)
Definition descending_request : QueryRequest.t :=
  {| QueryRequest.host := Some (js "localhost");
     QueryRequest.port := Some (js "8100");
     QueryRequest.metric := js "buckets";
     QueryRequest.resources := [js "b1"; js "b2"];
     QueryRequest.timeRange := [Number.of_Z 200; Number.of_Z 100];
     QueryRequest.accessKey := Some (js "accessKey1");
     QueryRequest.secretKey := Some (js "verySecretKey1");
     QueryRequest.verbose := false;
     QueryRequest.recent := false;
     QueryRequest.ssl := false |}.

Definition example_request : QueryRequest.t :=
  {| QueryRequest.host := Some (js "localhost");
     QueryRequest.port := Some (js "8100");
     QueryRequest.metric := js "buckets";
     QueryRequest.resources := [js "b1"; js "b2"];
     QueryRequest.timeRange := [Number.of_Z 100; Number.of_Z 200];
     QueryRequest.accessKey := Some (js "accessKey1");
     QueryRequest.secretKey := Some (js "verySecretKey1");
     QueryRequest.verbose := false;
     QueryRequest.recent := false;
     QueryRequest.ssl := false |}.

Definition no_content_response : response :=
  {| statusCode := 204; responseHeaders := []; chunks := [] |}.

Definition access_denied_response : response :=
  {| statusCode := 403;
     responseHeaders := [(js "content-type", js "application/json")];
     chunks := [js "{" ++ quoted "error" ++ js ":"; quoted "AccessDenied" ++ js "}"] |}.

Definition gateway_error_response : response :=
  {| statusCode := 502;
     responseHeaders := [(js "content-type", js "text/html")];
     chunks := [js "<html>Bad Gateway</html>"] |}.

Definition account_event : MetricObj.t :=
  {| MetricObj.authInfo := Some {| getCanonicalID := VString (js "ACCT123") |};
     MetricObj.bucket := VString (js "b1");
     MetricObj.byteLength := VUndefined;
     MetricObj.newByteLength := VNumber (Number.of_Z 12);
     MetricObj.oldByteLength := VNull;
     MetricObj.numberOfObjects := VUndefined |}.

(** ** Variations of an invocation *)

Definition with_verbose (c : Commander.t) (v : bool) : Commander.t :=
  {| Commander.host := Commander.host c; Commander.port := Commander.port c;
     Commander.accessKey := Commander.accessKey c;
     Commander.secretKey := Commander.secretKey c;
     Commander.metric := Commander.metric c; Commander.buckets := Commander.buckets c;
     Commander.accounts := Commander.accounts c; Commander.start := Commander.start c;
     Commander.end_ := Commander.end_ c; Commander.verbose := v;
     Commander.recent := Commander.recent c; Commander.ssl := Commander.ssl c |}.

Definition with_metric (c : Commander.t) (m : option jsstring) : Commander.t :=
  {| Commander.host := Commander.host c; Commander.port := Commander.port c;
     Commander.accessKey := Commander.accessKey c;
     Commander.secretKey := Commander.secretKey c;
     Commander.metric := m; Commander.buckets := Commander.buckets c;
     Commander.accounts := Commander.accounts c; Commander.start := Commander.start c;
     Commander.end_ := Commander.end_ c; Commander.verbose := Commander.verbose c;
     Commander.recent := Commander.recent c; Commander.ssl := Commander.ssl c |}.

Definition with_buckets (c : Commander.t) (b : option jsstring) : Commander.t :=
  {| Commander.host := Commander.host c; Commander.port := Commander.port c;
     Commander.accessKey := Commander.accessKey c;
     Commander.secretKey := Commander.secretKey c;
     Commander.metric := Commander.metric c; Commander.buckets := b;
     Commander.accounts := Commander.accounts c; Commander.start := Commander.start c;
     Commander.end_ := Commander.end_ c; Commander.verbose := Commander.verbose c;
     Commander.recent := Commander.recent c; Commander.ssl := Commander.ssl c |}.

Definition with_accounts (c : Commander.t) (a : option jsstring) : Commander.t :=
  {| Commander.host := Commander.host c; Commander.port := Commander.port c;
     Commander.accessKey := Commander.accessKey c;
     Commander.secretKey := Commander.secretKey c;
     Commander.metric := Commander.metric c; Commander.buckets := Commander.buckets c;
     Commander.accounts := a; Commander.start := Commander.start c;
     Commander.end_ := Commander.end_ c; Commander.verbose := Commander.verbose c;
     Commander.recent := Commander.recent c; Commander.ssl := Commander.ssl c |}.

(** An option given as the empty string, taken as not given. *)
Definition blank (v : option jsstring) : option jsstring :=
  match v with
  | Some [] => None
  | _ => v
  end.

Definition without_blanks (c : Commander.t) : Commander.t :=
  {| Commander.host := blank (Commander.host c);
     Commander.port := blank (Commander.port c);
     Commander.accessKey := blank (Commander.accessKey c);
     Commander.secretKey := blank (Commander.secretKey c);
     Commander.metric := blank (Commander.metric c);
     Commander.buckets := blank (Commander.buckets c);
     Commander.accounts := blank (Commander.accounts c);
     Commander.start := blank (Commander.start c);
     Commander.end_ := blank (Commander.end_ c);
     Commander.verbose := Commander.verbose c;
     Commander.recent := Commander.recent c;
     Commander.ssl := Commander.ssl c |}.

(** The checks of [listMetrics] in the order it makes them: the
    diagnostic of the first one that fails, if one does. *)
Definition diagnostic (metricType : option jsstring) (c : Commander.t) : option jsstring :=
  match chosen_metric metricType c with
  | None => Some (js "metric must be buckets or accounts")
  | Some m =>
      match first_missing (required metricType c m) with
      | Some k => Some (js "missing required option: " ++ k)
      | None =>
          if Commander.recent c then None
          else if negb (parses (Commander.start c)) then Some (js "start must be a number")
          else if truthy (Commander.end_ c) && negb (parses (Commander.end_ c))
               then Some (js "end must be a number")
          else None
      end
  end.

(** The arguments [listMetrics] passes to [_listMetrics] when every
    check is passed. *)
Definition query_of (metricType : option jsstring) (c : Commander.t) : QueryRequest.t :=
  let metric :=
    if strict_eq metricType (js "buckets") then js "buckets"
    else ToString (Commander.metric c) in
  {| QueryRequest.host := Commander.host c;
     QueryRequest.port := Commander.port c;
     QueryRequest.metric := metric;
     QueryRequest.resources := split comma (ToString (Commander.get c metric));
     QueryRequest.timeRange :=
       if Commander.recent c then []
       else Number.parseInt (ToString (Commander.start c))
            :: (if truthy (Commander.end_ c)
                then [Number.parseInt (ToString (Commander.end_ c))]
                else []);
     QueryRequest.accessKey := Commander.accessKey c;
     QueryRequest.secretKey := Commander.secretKey c;
     QueryRequest.verbose := Commander.verbose c;
     QueryRequest.recent := Commander.recent c;
     QueryRequest.ssl := Commander.ssl c |}.

(** What [_listMetrics] does to the transport for the arguments [q]. *)
Definition network_events (q : QueryRequest.t) : list event :=
  [TransportRequest (QueryRequest.ssl q)
     {| Options.host := QueryRequest.host q;
        Options.port := QueryRequest.port q;
        Options.method := js "POST";
        Options.path := js "/" ++ QueryRequest.metric q ++ js "?Action="
                        ++ (if QueryRequest.recent q then js "ListRecentMetrics"
                            else js "ListMetrics");
        Options.headers := [(js "content-type", js "application/json");
                            (js "cache-control", js "no-cache")];
        Options.rejectUnauthorized := false |};
   GenerateV4Headers [] (QueryRequest.accessKey q) (QueryRequest.secretKey q) (js "s3");
   RequestWrite
     (JSON_stringify
        (JObj (obj_assign (QueryRequest.metric q) (JArr (map JStr (QueryRequest.resources q)))
                 (if QueryRequest.recent q then []
                  else [(js "timeRange", JArr (map JNum (QueryRequest.timeRange q)))]))));
   RequestEnd].

Definition is_info_log (e : event) : bool :=
  match e with
  | Log Info _ _ => true
  | _ => false
  end.

(** A trace without the entries logged at level info. *)
Definition without_info (tr : list event) : list event :=
  filter (fun e => negb (is_info_log e)) tr.

Definition stdout_writes (tr : list event) : list jsstring :=
  flat_map (fun e => match e with StdoutWrite s => [s] | _ => [] end) tr.

Definition padded_start_options : Commander.t :=
  Commander.with_range example_options (Some (js "100 seconds")) (Some (js "")).

Definition legacy_options : Commander.t :=
  {| Commander.host := Some (js "localhost");
     Commander.port := Some (js "8100");
     Commander.accessKey := Some (js "accessKey1");
     Commander.secretKey := Some (js "verySecretKey1");
     Commander.metric := None;
     Commander.buckets := Some (js "b1,b2");
     Commander.accounts := None;
     Commander.start := Some (js "100");
     Commander.end_ := None;
     Commander.verbose := true;
     Commander.recent := false;
     Commander.ssl := true |}.

Definition no_port_options : Commander.t :=
  {| Commander.host := Some (js "localhost");
     Commander.port := Some (js "");
     Commander.accessKey := None;
     Commander.secretKey := Some (js "verySecretKey1");
     Commander.metric := Some (js "accounts");
     Commander.buckets := None;
     Commander.accounts := Some (js "a1");
     Commander.start := None;
     Commander.end_ := None;
     Commander.verbose := false;
     Commander.recent := false;
     Commander.ssl := false |}.

(** ** The range checks as the specification words them *)

(** The whole text is a base-10 integer: an optional sign, then digits
    and nothing else. *)
Definition base10_integer (v : option jsstring) : bool :=
  match v with
  | None => false
  | Some s =>
      let body := match s with
                  | c :: r => if (c =? 43) || (c =? 45) then r else s
                  | [] => []
                  end in
      negb (List.length body =? 0)%nat && forallb is_digit body
  end.

(** A value that does not pass as a number: not a base-10 integer, or
    one that parses to NaN or zero. *)
Definition fails_as_number (v : option jsstring) : bool :=
  negb (base10_integer v) || negb (parses v).

(** What the specification says of a listing that is not recent: a
    start that fails as a number, or an end that is supplied and fails,
    ends the process with code 1. *)
Definition range_contract (metricType : option jsstring) (c : Commander.t) : Prop :=
  Commander.recent c = false ->
  fails_as_number (Commander.start c) = true
  \/ (Commander.end_ c <> None /\ fails_as_number (Commander.end_ c) = true) ->
  result (listMetrics metricType c) = Exit 1.

Definition trailing_text_options : Commander.t :=
  Commander.with_range example_options (Some (js "100abc")) None.

Definition empty_end_options : Commander.t :=
  Commander.with_range example_options (Some (js "100")) (Some (js "")).

(** * Properties *)

(** ** The runtime model on known values *)

Example to_string_values :
  Number.to_string (Number.of_Z 100) = js "100"
  /\ Number.to_string (Number.of_decimal false 1 (-1)) = js "0.1"
  /\ Number.to_string (Number.of_decimal true 125 (-2)) = js "-1.25"
  /\ Number.to_string (Number.of_decimal false 1 21) = js "1e+21"
  /\ Number.to_string (Number.of_decimal false 1 (-7)) = js "1e-7"
  /\ Number.to_string (Number.of_Z 9007199254740993) = js "9007199254740992"
  /\ Number.to_string (Number.of_ratio false 1 3) = js "0.3333333333333333"
  /\ Number.to_string (Number.of_decimal false 5 (-324)) = js "5e-324"
  /\ Number.to_string (Number.of_decimal false 1 400) = js "Infinity".
Proof. vm_compute. repeat split. Qed.

Example parseInt_values :
  Number.parseInt (js "  42abc") = Number.of_Z 42
  /\ Number.parseInt (js "-7") = Number.of_Z (-7)
  /\ Number.parseInt (js "1e3") = Number.of_Z 1
  /\ Number.parseInt (js "0x10") = Number.of_Z 0
  /\ Number.parseInt (js "abc") = Number.NaN
  /\ Number.parseInt (js "") = Number.NaN
  /\ Number.parseInt (js "undefined") = Number.NaN.
Proof. vm_compute. repeat split. Qed.

Example JSON_parse_values :
  JSON_parse (js "") = None
  /\ JSON_parse (js "[1,]") = None
  /\ JSON_parse (js "01") = None
  /\ JSON_parse (js "<html>") = None
  /\ JSON_parse (js " [1, 2.5e1, true, null] ")
     = Some (JArr [JNum (Number.of_Z 1); JNum (Number.of_Z 25); JBool true; JNull])
  /\ JSON_parse (js "{" ++ quoted "b" ++ js ":1," ++ quoted "a" ++ js ":{},"
                 ++ quoted "b" ++ js ":[]}")
     = Some (JObj [(js "b", JArr []); (js "a", JObj [])]).
Proof. vm_compute. repeat split. Qed.

Example JSON_stringify_values :
  JSON_stringify (JObj [(js "b", JNull); (js "10", JBool true); (js "9", JStr [dquote; 10])])
  = js "{" ++ quoted "9" ++ js ":" ++ [dquote; backslash; dquote; backslash; 110; dquote]
    ++ js "," ++ quoted "10" ++ js ":true," ++ quoted "b" ++ js ":null}"
  /\ JSON_stringify_pretty (JObj [(js "a", JArr [JNull; JArr []]); (js "b", JObj [])])
     = js "{" ++ [10] ++ js "  " ++ quoted "a" ++ js ": [" ++ [10]
       ++ js "    null," ++ [10] ++ js "    []" ++ [10] ++ js "  ]," ++ [10]
       ++ js "  " ++ quoted "b" ++ js ": {}" ++ [10] ++ js "}".
Proof. vm_compute. repeat split. Qed.

Example obj_assign_values :
  own_keys (obj_assign (js "a") 2 (obj_assign (js "1") 1 (obj_assign (js "b") 0 [])))
  = [js "1"; js "b"; js "a"]
  /\ obj_assign (js "b") 3 [(js "b", 0); (js "a", 1)] = [(js "b", 3); (js "a", 1)]
  /\ obj_assign (js "__proto__") 3 [(js "a", 1)] = [(js "a", 1)].
Proof. vm_compute. repeat split. Qed.

(** ** Strings *)

Lemma jsstring_eqb_eq (a b : jsstring) : jsstring_eqb a b = true <-> a = b.
Proof.
  revert b; induction a as [|x a IH]; intros [|y b]; simpl; split;
    try discriminate; try reflexivity.
  - intros H. apply andb_prop in H as [Hx Hab].
    apply Z.eqb_eq in Hx. apply IH in Hab. congruence.
  - intros H. injection H as -> ->. rewrite Z.eqb_refl. simpl. now apply IH.
Qed.

Lemma jsstring_eqb_neq (a b : jsstring) : jsstring_eqb a b = false <-> a <> b.
Proof.
  split.
  - intros H E. apply jsstring_eqb_eq in E. congruence.
  - intros H. destruct (jsstring_eqb a b) eqn:E; [|reflexivity].
    apply jsstring_eqb_eq in E. contradiction.
Qed.

Lemma strict_eq_true (v : option jsstring) (s : jsstring) :
  strict_eq v s = true <-> v = Some s.
Proof.
  destruct v as [x|]; simpl.
  - rewrite jsstring_eqb_eq. split; congruence.
  - split; discriminate.
Qed.

Lemma strict_eq_false (v : option jsstring) (s : jsstring) :
  strict_eq v s = false <-> v <> Some s.
Proof.
  rewrite <- strict_eq_true. destruct (strict_eq v s); split; congruence.
Qed.

Lemma split_not_nil (sep : Z) (s : jsstring) : split sep s <> [].
Proof.
  destruct s as [|c s]; simpl; [discriminate|].
  destruct (c =? sep); [discriminate|].
  destruct (split sep s); discriminate.
Qed.

Lemma split_length (sep : Z) (s : jsstring) :
  List.length (split sep s) = (count_occ_unit sep s + 1)%nat.
Proof.
  unfold count_occ_unit.
  induction s as [|c s IH]; simpl; [reflexivity|].
  destruct (c =? sep); simpl.
  - now rewrite IH.
  - pose proof (split_not_nil sep s) as Hne.
    destruct (split sep s) as [|p ps]; [contradiction|]. exact IH.
Qed.

Lemma join_cons (sep x : jsstring) (l : list jsstring) :
  l <> [] -> join sep (x :: l) = x ++ sep ++ join sep l.
Proof. destruct l; [contradiction|reflexivity]. Qed.

Lemma join_split (sep : Z) (s : jsstring) : join [sep] (split sep s) = s.
Proof.
  induction s as [|c s IH]; [reflexivity|].
  pose proof (split_not_nil sep s) as Hne.
  cbn [split]. destruct (c =? sep) eqn:E.
  - apply Z.eqb_eq in E. subst c.
    rewrite join_cons by assumption. now rewrite IH.
  - destruct (split sep s) as [|p ps]; [contradiction|].
    destruct ps as [|p' ps].
    + cbn [join] in *. now rewrite IH.
    + rewrite join_cons by discriminate.
      rewrite join_cons in IH by discriminate.
      rewrite <- IH. reflexivity.
Qed.

Lemma split_pieces_free (sep : Z) (s : jsstring) :
  Forall (fun p => ~ In sep p) (split sep s).
Proof.
  induction s as [|c s IH]; simpl.
  - constructor; [intros []|constructor].
  - destruct (c =? sep) eqn:E.
    + constructor; [intros []|exact IH].
    + apply Z.eqb_neq in E.
      destruct (split sep s) as [|p ps]; [constructor; [|constructor]|].
      * intros [H|[]]. congruence.
      * inversion IH as [|? ? Hp Hps]; subst. constructor; [|exact Hps].
        intros [H|H]; [congruence|contradiction].
Qed.

(** ** Numbers *)

Lemma round_half_even_ge (num den : Z) :
  num / den <= Number.round_half_even num den.
Proof.
  unfold Number.round_half_even.
  destruct (2 * (num mod den) ?= den); [destruct (Z.even (num / den))| |]; lia.
Qed.

(** A positive integer never rounds to zero. *)
Lemma of_ratio_positive (neg : bool) (n : Z) :
  0 < n -> Number.to_boolean (Number.of_ratio neg n 1) = true.
Proof.
  intros Hn. unfold Number.of_ratio.
  destruct (n =? 0) eqn:E; [apply Z.eqb_eq in E; lia|].
  change (Z.log2 1) with 0. rewrite Z.sub_0_r.
  pose proof (Z.log2_nonneg n) as Hf.
  pose proof (Z.log2_spec n Hn) as [Hlo _].
  unfold Number.ratio_ge_pow2.
  destruct (0 <=? Z.log2 n) eqn:E0; [|apply Z.leb_gt in E0; lia].
  destruct (1 * 2 ^ Z.log2 n <=? n) eqn:E1; [|apply Z.leb_gt in E1; lia].
  rewrite Z.max_l by lia.
  set (e := Z.log2 n - 52).
  set (m := if 0 <=? e then Number.round_half_even n (1 * 2 ^ e)
            else Number.round_half_even (n * 2 ^ (- e)) 1).
  assert (Hm : 0 < m).
  { subst m. destruct (0 <=? e) eqn:Ee.
    - apply Z.leb_le in Ee.
      pose proof (round_half_even_ge n (1 * 2 ^ e)) as H.
      assert (2 ^ 52 <= n / (1 * 2 ^ e)).
      { apply Z.div_le_lower_bound; [lia|].
        rewrite Z.mul_1_l, <- Z.pow_add_r by lia.
        replace (e + 52) with (Z.log2 n) by (subst e; lia). exact Hlo. }
      lia.
    - apply Z.leb_gt in Ee.
      pose proof (round_half_even_ge (n * 2 ^ (- e)) 1) as H.
      rewrite Z.div_1_r in H.
      assert (0 < 2 ^ (- e)) by (apply Z.pow_pos_nonneg; lia).
      nia. }
  destruct (m =? 2 ^ 53) eqn:E53.
  - destruct (971 <? e + 1); reflexivity.
  - destruct (971 <? e); [reflexivity|].
    simpl. destruct (m =? 0) eqn:Em0; [apply Z.eqb_eq in Em0; lia|reflexivity].
Qed.

Lemma digits_prefix_digits (s : jsstring) :
  Forall (fun c => 48 <= c <= 57) (Number.digits_prefix s).
Proof.
  induction s as [|c s IH]; simpl; [constructor|].
  unfold is_digit. destruct (48 <=? c) eqn:E1; [|constructor].
  destruct (c <=? 57) eqn:E2; [|constructor].
  apply Z.leb_le in E1, E2. constructor; [lia|exact IH].
Qed.

Lemma digits_fold_nonneg (ds : jsstring) :
  Forall (fun c => 48 <= c <= 57) ds ->
  forall acc, 0 <= acc -> 0 <= fold_left (fun a d => 10 * a + (d - 48)) ds acc.
Proof.
  induction 1 as [|c ds Hc _ IH]; intros acc Hacc; cbn [fold_left]; [exact Hacc|].
  cbv beta in Hc. apply IH. lia.
Qed.

(** [parseInt] gives a falsy Number exactly when it reads no digit or
    reads the integer zero. *)
Lemma parseInt_falsy (s : jsstring) :
  Number.to_boolean (Number.parseInt s) = false <->
  Number.digits_value (Number.digits_prefix (Number.unsigned_part s)) = 0.
Proof.
  unfold Number.parseInt.
  pose proof (digits_prefix_digits (Number.unsigned_part s)) as Hd.
  destruct (Number.digits_prefix (Number.unsigned_part s)) as [|d ds].
  - split; reflexivity.
  - set (v := Number.digits_value (d :: ds)).
    assert (Hv : 0 <= v) by (apply (digits_fold_nonneg _ Hd); lia).
    destruct (Z.eq_dec v 0) as [E|E].
    + rewrite E. split; reflexivity.
    + rewrite of_ratio_positive by lia. split; [discriminate|contradiction].
Qed.

Lemma to_boolean_false (x : Number.t) :
  Number.to_boolean x = false <->
  x = Number.NaN \/ exists neg e, x = Number.Fin neg 0 e.
Proof.
  destruct x as [|neg|neg m e]; simpl.
  - split; [now left|reflexivity].
  - split; [discriminate|]. intros [H|(n & e & H)]; discriminate.
  - split.
    + intros H. apply negb_false_iff in H. apply Z.eqb_eq in H. subst m.
      right. now exists neg, e.
    + intros [H|(n & e' & H)]; [discriminate|]. injection H as _ -> _. reflexivity.
Qed.

(** ** The effect monad *)

Lemma bind_ret {A B} (a : A) (k : A -> M B) : bind (ret a) k = k a.
Proof. unfold bind, ret. destruct (k a) as [tr r]. reflexivity. Qed.

Lemma reject_eq {A} (msg : jsstring) :
  @reject A msg = ([Log Error msg []; OutputHelp], Exit 1).
Proof. reflexivity. Qed.

(** One required option after the other: a missing one rejects, a
    present one lets the check go on. *)
Ltac by_presence v := destruct v as [[|? ?]|]; [reflexivity | | reflexivity].

Lemma checkOptions_spec (metricType : option jsstring) (c : Commander.t) :
  checkOptions metricType c =
  match chosen_metric metricType c with
  | None => reject (js "metric must be buckets or accounts")
  | Some m =>
      match first_missing (required metricType c m) with
      | Some k => reject (js "missing required option: " ++ k)
      | None => ret m
      end
  end.
Proof.
  destruct c as [h p a s m b ac st en v r sl].
  unfold checkOptions, chosen_metric, required.
  cbn [Commander.host Commander.port Commander.accessKey Commander.secretKey
       Commander.metric Commander.recent Commander.start].
  destruct (strict_eq metricType (js "buckets")) eqn:Hmt.
  - (* the old style: metric is 'buckets' *)
    destruct r; by_presence h; by_presence p; by_presence a; by_presence s;
      by_presence b; try by_presence st; reflexivity.
  - destruct m as [m|]; [|reflexivity].
    unfold strict_eq.
    destruct (jsstring_eqb m (js "buckets")) eqn:Hb.
    { apply jsstring_eqb_eq in Hb. subst m.
      destruct r; by_presence h; by_presence p; by_presence a; by_presence s;
        by_presence b; try by_presence st; reflexivity. }
    destruct (jsstring_eqb m (js "accounts")) eqn:Ha; [|reflexivity].
    apply jsstring_eqb_eq in Ha. subst m.
    destruct r; by_presence h; by_presence p; by_presence a; by_presence s;
      by_presence ac; try by_presence st; reflexivity.
Qed.

Lemma bind_returns {A B} (m : M A) (k : A -> M B) (tr : list event) (b : B) :
  bind m k = (tr, Return b) ->
  exists a t1 t2, m = (t1, Return a) /\ k a = (t2, Return b) /\ tr = t1 ++ t2.
Proof.
  destruct m as [t1 [a| |]]; simpl; try discriminate.
  destruct (k a) as [t2 r] eqn:Hk. intros H. injection H as <- ->.
  exists a, t1, t2. auto.
Qed.

Lemma first_missing_none (o : obj (option jsstring)) :
  first_missing o = None -> forall k v, In (k, v) o -> truthy v = true.
Proof.
  induction o as [|[k' v'] o IH]; simpl; [intros _ k v []|].
  destruct (truthy v') eqn:Hv; [|discriminate].
  intros H k v [E|Hin]; [congruence|eauto].
Qed.

Lemma truthy_some (v : option jsstring) :
  truthy v = true -> exists s, v = Some s /\ s <> [].
Proof.
  destruct v as [[|x s]|]; simpl; try discriminate.
  intros _. exists (x :: s). split; [reflexivity|discriminate].
Qed.

Lemma chosen_metric_allowed (metricType : option jsstring) (c : Commander.t) (m : jsstring) :
  chosen_metric metricType c = Some m -> m = js "buckets" \/ m = js "accounts".
Proof.
  unfold chosen_metric.
  destruct (strict_eq metricType (js "buckets")); [intros [= <-]; now left|].
  destruct (strict_eq (Commander.metric c) (js "buckets")); [intros [= <-]; now left|].
  destruct (strict_eq (Commander.metric c) (js "accounts")); [intros [= <-]; now right|].
  discriminate.
Qed.

(** ** [timeRange] *)

Lemma parseTimeRange_spec (c : Commander.t) :
  parseTimeRange c =
  if Commander.recent c then ret []
  else if negb (parses (Commander.start c)) then reject (js "start must be a number")
  else if negb (truthy (Commander.end_ c)) then
    ret [Number.parseInt (ToString (Commander.start c))]
  else if negb (parses (Commander.end_ c)) then reject (js "end must be a number")
  else ret [Number.parseInt (ToString (Commander.start c));
            Number.parseInt (ToString (Commander.end_ c))].
Proof.
  unfold parseTimeRange, parses.
  destruct (Commander.recent c); [reflexivity|]. cbn [negb].
  destruct (Number.to_boolean (Number.parseInt (ToString (Commander.start c))));
    [|reflexivity]. cbn [negb].
  destruct (truthy (Commander.end_ c)); [|reflexivity]. cbn [negb].
  destruct (Number.to_boolean (Number.parseInt (ToString (Commander.end_ c))));
    reflexivity.
Qed.

Lemma parseTimeRange_returns (c : Commander.t) (tr : list event) (l : list Number.t) :
  parseTimeRange c = (tr, Return l) ->
  tr = []
  /\ (Commander.recent c = true -> l = [])
  /\ (Commander.recent c = false ->
      (List.length l = 1%nat \/ List.length l = 2%nat)
      /\ Forall (fun x => Number.to_boolean x = true) l).
Proof.
  rewrite parseTimeRange_spec. unfold parses.
  destruct (Commander.recent c).
  { intros [= <- <-]. repeat split; try discriminate. }
  destruct (Number.to_boolean (Number.parseInt (ToString (Commander.start c)))) eqn:Hs;
    cbn [negb]; [|discriminate].
  destruct (truthy (Commander.end_ c)); cbn [negb].
  - destruct (Number.to_boolean (Number.parseInt (ToString (Commander.end_ c)))) eqn:He;
      cbn [negb]; [|discriminate].
    intros [= <- <-]. repeat split; try discriminate.
    + now right.
    + repeat constructor; assumption.
  - intros [= <- <-]. repeat split; try discriminate.
    + now left.
    + repeat constructor; assumption.
Qed.

(** ** The arguments handed to [_listMetrics] *)

Lemma buildQueryRequest_returns (metricType : option jsstring) (c : Commander.t)
    (tr : list event) (q : QueryRequest.t) :
  buildQueryRequest metricType c = (tr, Return q) ->
  exists m s range,
    tr = []
    /\ chosen_metric metricType c = Some m
    /\ first_missing (required metricType c m) = None
    /\ Commander.get c m = Some s /\ s <> []
    /\ parseTimeRange c = ([], Return range)
    /\ q = {| QueryRequest.host := Commander.host c;
              QueryRequest.port := Commander.port c;
              QueryRequest.metric := m;
              QueryRequest.resources := split comma s;
              QueryRequest.timeRange := range;
              QueryRequest.accessKey := Commander.accessKey c;
              QueryRequest.secretKey := Commander.secretKey c;
              QueryRequest.verbose := Commander.verbose c;
              QueryRequest.recent := Commander.recent c;
              QueryRequest.ssl := Commander.ssl c |}.
Proof.
  unfold buildQueryRequest. rewrite checkOptions_spec.
  destruct (chosen_metric metricType c) as [m|] eqn:Hm; [|discriminate].
  destruct (first_missing (required metricType c m)) as [k|] eqn:Hreq; [discriminate|].
  rewrite bind_ret. intros H.
  apply bind_returns in H as (range & t1 & t2 & Hrange & H & ->).
  pose proof (parseTimeRange_returns _ _ _ Hrange) as [-> _].
  assert (Hin : In (m, Commander.get c m) (required metricType c m)).
  { unfold required. apply in_or_app. right. apply in_or_app. right. now left. }
  apply (first_missing_none _ Hreq) in Hin.
  apply truthy_some in Hin as (s & Hs & Hne).
  rewrite Hs in H. rewrite bind_ret in H. injection H as <- <-.
  exists m, s, range. repeat split; assumption.
Qed.

(** ** The request [_listMetrics] builds *)

Lemma _listMetrics_trace (host port : option jsstring) (metric : jsstring)
    (metricType : list jsstring) (timeRange : list Number.t)
    (accessKey secretKey : option jsstring) (verbose recent ssl : bool) :
  _listMetrics host port metric metricType timeRange accessKey secretKey verbose recent ssl =
  ([TransportRequest ssl
      {| Options.host := host;
         Options.port := port;
         Options.method := js "POST";
         Options.path := js "/" ++ metric ++ js "?Action="
                         ++ (if recent then js "ListRecentMetrics" else js "ListMetrics");
         Options.headers := [(js "content-type", js "application/json");
                             (js "cache-control", js "no-cache")];
         Options.rejectUnauthorized := false |};
    GenerateV4Headers [] accessKey secretKey (js "s3")]
   ++ (if verbose then [Log Info (js "request headers") [(js "headers", LSignedHeaders)]]
       else [])
   ++ [RequestWrite
         (JSON_stringify
            (JObj (obj_assign metric (JArr (map JStr metricType))
                     (if recent then []
                      else [(js "timeRange", JArr (map JNum timeRange))]))));
       RequestEnd],
   Return tt).
Proof. destruct verbose; reflexivity. Qed.

Lemma _listMetrics_body (host port : option jsstring) (metric : jsstring)
    (metricType : list jsstring) (timeRange : list Number.t)
    (accessKey secretKey : option jsstring) (verbose recent ssl : bool) :
  written_bodies
    (trace (_listMetrics host port metric metricType timeRange accessKey secretKey
              verbose recent ssl))
  = [JSON_stringify
       (JObj (obj_assign metric (JArr (map JStr metricType))
                (if recent then []
                 else [(js "timeRange", JArr (map JNum timeRange))])))].
Proof. rewrite _listMetrics_trace. destruct verbose; reflexivity. Qed.

(** [_listMetrics] alone does not keep the key [timeRange] out of the
    body: the metric is assigned as a key, whatever it is.  It is
    [listMetrics] that lets only two metrics through. *)
Example metric_named_timeRange :
  written_bodies
    (trace (_listMetrics None None (js "timeRange") [js "b1"] [] None None false true false))
  = [js "{" ++ quoted "timeRange" ++ js ":[" ++ quoted "b1" ++ js "]}"].
Proof. vm_compute. reflexivity. Qed.

(** ** What [JSON.parse] reads back from [JSON.stringify]

    The text [JSON.stringify] writes for an array of strings, and for
    the body of a recent listing, is read back by [JSON.parse] as the
    value it was written from. *)
Section ReadBack.

Import JSONParser.

Lemma hex_value_digit (d : Z) : 0 <= d < 16 -> hex_value (hex_digit d) = Some d.
Proof.
  intros H.
  assert (E : d = 0 \/ d = 1 \/ d = 2 \/ d = 3 \/ d = 4 \/ d = 5 \/ d = 6 \/ d = 7
              \/ d = 8 \/ d = 9 \/ d = 10 \/ d = 11 \/ d = 12 \/ d = 13 \/ d = 14
              \/ d = 15) by lia.
  repeat (destruct E as [-> | E]; [reflexivity|]). subst d. reflexivity.
Qed.

Lemma run_step (st st' : state) (c : Z) (s : jsstring) :
  step st c = Some st' -> run st (c :: s) = run st' s.
Proof. intros H. simpl. now rewrite H. Qed.

Lemma step_plain (p : pos) (acc : jsstring) (c : Z) :
  32 <= c -> c <> dquote -> c <> backslash ->
  step (p, TStr acc) c = Some (p, TStr (c :: acc)).
Proof.
  intros H1 H2 H3. unfold step.
  apply Z.eqb_neq in H2, H3. rewrite H2, H3.
  destruct (c <? 32) eqn:E; [apply Z.ltb_lt in E; lia|reflexivity].
Qed.

Lemma hex4_value (c : Z) :
  0 <= c < 65536 ->
  16 * (16 * (16 * (16 * 0 + (c / 4096) mod 16) + (c / 256) mod 16) + (c / 16) mod 16)
  + c mod 16 = c.
Proof.
  intros Hc.
  pose proof (Z.div_mod c 16 ltac:(lia)) as E0.
  pose proof (Z.div_mod (c / 16) 16 ltac:(lia)) as E1.
  pose proof (Z.div_mod (c / 256) 16 ltac:(lia)) as E2.
  assert (D1 : c / 16 / 16 = c / 256) by (rewrite Z.div_div by lia; reflexivity).
  assert (D2 : c / 256 / 16 = c / 4096) by (rewrite Z.div_div by lia; reflexivity).
  rewrite D1 in E1. rewrite D2 in E2.
  assert (H : 0 <= c / 4096 < 16).
  { split; [apply Z.div_pos; lia|apply Z.div_lt_upper_bound; lia]. }
  rewrite (Z.mod_small (c / 4096)) by exact H. lia.
Qed.

Lemma run_unicode_escape (p : pos) (acc : jsstring) (c : Z) (rest : jsstring) :
  code_unit c ->
  run (p, TStr acc) (unicode_escape c ++ rest) = run (p, TStr (c :: acc)) rest.
Proof.
  intros Hc. unfold code_unit in Hc. unfold unicode_escape.
  cbn [app].
  rewrite (run_step (p, TStr acc) (p, TEsc acc)) by reflexivity.
  rewrite (run_step (p, TEsc acc) (p, THex acc 4 0)) by reflexivity.
  assert (H3 : 0 <= c / 4096 mod 16 < 16) by (apply Z.mod_pos_bound; lia).
  assert (H2 : 0 <= c / 256 mod 16 < 16) by (apply Z.mod_pos_bound; lia).
  assert (H1 : 0 <= c / 16 mod 16 < 16) by (apply Z.mod_pos_bound; lia).
  assert (H0 : 0 <= c mod 16 < 16) by (apply Z.mod_pos_bound; lia).
  rewrite (run_step _ (p, THex acc 3 (16 * 0 + c / 4096 mod 16)))
    by (cbn [step]; rewrite hex_value_digit by assumption; reflexivity).
  rewrite (run_step _ (p, THex acc 2 (16 * (16 * 0 + c / 4096 mod 16) + c / 256 mod 16)))
    by (cbn [step]; rewrite hex_value_digit by assumption; reflexivity).
  rewrite (run_step _ (p, THex acc 1
             (16 * (16 * (16 * 0 + c / 4096 mod 16) + c / 256 mod 16) + c / 16 mod 16)))
    by (cbn [step]; rewrite hex_value_digit by assumption; reflexivity).
  rewrite (run_step _ (p, TStr (c :: acc))).
  - reflexivity.
  - cbn [step]. rewrite hex_value_digit by assumption.
    now rewrite hex4_value.
Qed.

Lemma run_quote_unit (p : pos) (acc : jsstring) (c : Z) (rest : jsstring) :
  code_unit c ->
  run (p, TStr acc) (quote_unit c ++ rest) = run (p, TStr (c :: acc)) rest.
Proof.
  intros Hc. unfold quote_unit.
  destruct (c =? 8) eqn:E8; [apply Z.eqb_eq in E8; subst c; reflexivity|].
  destruct (c =? 9) eqn:E9; [apply Z.eqb_eq in E9; subst c; reflexivity|].
  destruct (c =? 10) eqn:E10; [apply Z.eqb_eq in E10; subst c; reflexivity|].
  destruct (c =? 12) eqn:E12; [apply Z.eqb_eq in E12; subst c; reflexivity|].
  destruct (c =? 13) eqn:E13; [apply Z.eqb_eq in E13; subst c; reflexivity|].
  destruct (c =? dquote) eqn:Eq; [apply Z.eqb_eq in Eq; subst c; reflexivity|].
  destruct (c =? backslash) eqn:Eb; [apply Z.eqb_eq in Eb; subst c; reflexivity|].
  destruct (c <? 32) eqn:E32; [now apply run_unicode_escape|].
  destruct (is_leading_surrogate c || is_trailing_surrogate c);
    [now apply run_unicode_escape|].
  apply Z.ltb_ge in E32. apply Z.eqb_neq in Eq, Eb.
  cbn [app]. apply run_step. now apply step_plain.
Qed.

Lemma quote_units_pair (c d : Z) (s : jsstring) :
  quote_units (c :: d :: s)
  = if is_leading_surrogate c && is_trailing_surrogate d
    then c :: d :: quote_units s
    else quote_unit c ++ quote_units (d :: s).
Proof. reflexivity. Qed.

Lemma run_quote_units_bounded (n : nat) :
  forall s, (List.length s <= n)%nat -> Forall code_unit s ->
  forall p acc rest,
    run (p, TStr acc) (quote_units s ++ rest) = run (p, TStr (List.rev s ++ acc)) rest.
Proof.
  induction n as [|n IH]; intros s Hlen Hs p acc rest.
  - destruct s; [reflexivity|simpl in Hlen; lia].
  - destruct s as [|c s]; [reflexivity|].
    inversion Hs as [|? ? Hc Hs']; subst.
    cbn [List.rev]. rewrite <- app_assoc. cbn [app].
    destruct s as [|d s].
    + cbn [quote_units]. now apply run_quote_unit.
    + rewrite quote_units_pair.
      destruct (is_leading_surrogate c && is_trailing_surrogate d) eqn:E.
      * apply andb_prop in E as [Ec Ed].
        unfold is_leading_surrogate in Ec. unfold is_trailing_surrogate in Ed.
        apply andb_prop in Ec as [Ec _]. apply andb_prop in Ed as [Ed _].
        apply Z.leb_le in Ec, Ed.
        inversion Hs' as [|? ? Hd Hs'']; subst.
        cbn [app].
        rewrite (run_step _ (p, TStr (c :: acc)))
          by (apply step_plain; unfold dquote, backslash; lia).
        rewrite (run_step _ (p, TStr (d :: c :: acc)))
          by (apply step_plain; unfold dquote, backslash; lia).
        rewrite IH by (assumption || (simpl in Hlen; lia)).
        cbn [List.rev]. rewrite <- app_assoc. reflexivity.
      * rewrite <- app_assoc, run_quote_unit by assumption.
        apply IH; [simpl in Hlen |- *; lia|assumption].
Qed.

Lemma run_quote_units (s : jsstring) (p : pos) (acc rest : jsstring) :
  Forall code_unit s ->
  run (p, TStr acc) (quote_units s ++ rest) = run (p, TStr (List.rev s ++ acc)) rest.
Proof. intros Hs. now apply (run_quote_units_bounded (List.length s)). Qed.

(** A quoted string where a value may stand. *)
Lemma run_quote_value (s : jsstring) (ctx : list frame) (rest : jsstring) :
  Forall code_unit s ->
  run (PValue ctx, TNone) (quote s ++ rest) = run (plug (JStr s) ctx, TNone) rest.
Proof.
  intros Hs. unfold quote. rewrite <- !app_assoc. cbn [app].
  rewrite (run_step _ (PValue ctx, TStr [])) by reflexivity.
  rewrite run_quote_units by assumption.
  rewrite app_nil_r. apply run_step.
  cbn [step]. rewrite Z.eqb_refl. cbn [end_string]. now rewrite rev_involutive.
Qed.

(** The strings of an array, after its first one. *)
Lemma run_more_strings (l : list jsstring) (done : list json) (ctx : list frame)
    (rest : jsstring) :
  Forall (Forall code_unit) l ->
  run (PAfterElem done ctx, TNone)
      (fold_right (fun s tl => js "," ++ quote s ++ tl) (js "]" ++ rest) l)
  = run (plug (JArr (List.rev done ++ map JStr l)) ctx, TNone) rest.
Proof.
  intros Hl. revert done.
  induction Hl as [|s l Hs _ IH]; intros done.
  - cbn [fold_right map]. rewrite app_nil_r. reflexivity.
  - cbn [fold_right map]. cbn [js list_ascii_of_string map app].
    rewrite (run_step _ (PValue (InArr done :: ctx), TNone)) by reflexivity.
    rewrite run_quote_value by assumption.
    cbn [plug]. rewrite IH. cbn [List.rev]. now rewrite <- app_assoc.
Qed.

Lemma join_quoted (s : jsstring) (l : list jsstring) (tl : jsstring) :
  join (js ",") (map quote (s :: l)) ++ tl
  = quote s ++ fold_right (fun s tl => js "," ++ quote s ++ tl) tl l.
Proof.
  revert s. induction l as [|s' l IH]; intros s.
  - reflexivity.
  - cbn [map]. rewrite join_cons by discriminate.
    cbn [fold_right]. rewrite <- !app_assoc. f_equal. f_equal.
    apply (IH s').
Qed.

(** An array of strings, as [JSON.stringify] writes it, read back. *)
Lemma run_string_array (l : list jsstring) (ctx : list frame) (rest : jsstring) :
  Forall (Forall code_unit) l ->
  run (PValue ctx, TNone) (JSON_stringify (JArr (map JStr l)) ++ rest)
  = run (plug (JArr (map JStr l)) ctx, TNone) rest.
Proof.
  intros Hl. cbn [JSON_stringify]. rewrite map_map. cbn [JSON_stringify].
  change (map (fun x : jsstring => quote x) l) with (map quote l).
  rewrite <- !app_assoc.
  change (js "[" ++ join (js ",") (map quote l) ++ js "]" ++ rest)
    with (91 :: (join (js ",") (map quote l) ++ js "]" ++ rest)).
  rewrite (run_step _ (PFirstElem ctx, TNone)) by reflexivity.
  destruct Hl as [|s l Hs Hl].
  - reflexivity.
  - rewrite join_quoted.
    transitivity (run (PValue (InArr [] :: ctx), TNone)
                    (quote s ++ fold_right (fun s tl => js "," ++ quote s ++ tl)
                                  (js "]" ++ rest) l)); [reflexivity|].
    rewrite run_quote_value by assumption.
    cbn [plug]. now rewrite run_more_strings.
Qed.

(** The body of a recent listing, read back by [JSON.parse]: an object
    with the metric as its one key. *)
Lemma parse_recent_body (metric : jsstring) (resources : list jsstring) :
  metric = js "buckets" \/ metric = js "accounts" ->
  Forall (Forall code_unit) resources ->
  JSON_parse (JSON_stringify (JObj [(metric, JArr (map JStr resources))]))
  = Some (JObj [(metric, JArr (map JStr resources))]).
Proof.
  intros Hm Hr. unfold JSON_parse.
  set (arr := JArr (map JStr resources)).
  destruct Hm as [-> | ->].
  - transitivity (run (PValue [InObj [] (js "buckets")], TNone)
                    (JSON_stringify arr ++ js "}")).
    + assert (E : JSON_stringify (JObj [(js "buckets", arr)])
                  = js "{" ++ quoted "buckets" ++ js ":" ++ JSON_stringify arr ++ js "}").
      { cbn [JSON_stringify map fst snd]. reflexivity. }
      rewrite E. reflexivity.
    + subst arr. rewrite run_string_array by assumption. reflexivity.
  - transitivity (run (PValue [InObj [] (js "accounts")], TNone)
                    (JSON_stringify arr ++ js "}")).
    + assert (E : JSON_stringify (JObj [(js "accounts", arr)])
                  = js "{" ++ quoted "accounts" ++ js ":" ++ JSON_stringify arr ++ js "}").
      { cbn [JSON_stringify map fst snd]. reflexivity. }
      rewrite E. reflexivity.
    + subst arr. rewrite run_string_array by assumption. reflexivity.
Qed.

End ReadBack.

(** [listMetrics] gets to [_listMetrics] without a sound, or rejects the
    invocation with one diagnostic; [commander[metric].split] never
    fails. *)
Lemma buildQueryRequest_cases (metricType : option jsstring) (c : Commander.t) :
  (exists q, buildQueryRequest metricType c = ([], Return q))
  \/ (exists msg,
        buildQueryRequest metricType c = ([Log Error msg []; OutputHelp], Exit 1)).
Proof.
  unfold buildQueryRequest. rewrite checkOptions_spec.
  destruct (chosen_metric metricType c) as [m|]; [|right; eexists; reflexivity].
  destruct (first_missing (required metricType c m)) as [k|] eqn:Hreq;
    [right; eexists; reflexivity|].
  rewrite bind_ret.
  assert (Hin : In (m, Commander.get c m) (required metricType c m)).
  { unfold required. apply in_or_app. right. apply in_or_app. right. now left. }
  apply (first_missing_none _ Hreq) in Hin.
  apply truthy_some in Hin as (s & -> & _).
  rewrite parseTimeRange_spec.
  destruct (Commander.recent c); [left; eexists; reflexivity|].
  destruct (parses (Commander.start c)); [|right; eexists; reflexivity].
  destruct (truthy (Commander.end_ c)); [|left; eexists; reflexivity].
  destruct (parses (Commander.end_ c)); [left|right]; eexists; reflexivity.
Qed.

Lemma listMetrics_cases (metricType : option jsstring) (c : Commander.t) :
  (exists q, buildQueryRequest metricType c = ([], Return q)
             /\ listMetrics metricType c = send q)
  \/ (exists msg,
        listMetrics metricType c = ([Log Error msg []; OutputHelp], Exit 1)).
Proof.
  unfold listMetrics.
  destruct (buildQueryRequest_cases metricType c) as [[q Hq]|[msg Hmsg]].
  - left. exists q. split; [exact Hq|]. rewrite Hq. apply (bind_ret q send).
  - right. exists msg. rewrite Hmsg. reflexivity.
Qed.

(** ** [pushMetric] on a sample event *)

Example account_event_payload :
  pushMetric Payload.t (fun _ _ p => p) (js "putObject")
    {| getSerializedUids := js "uid1:uid2" |} account_event
  = {| Payload.bucket := VString (js "b1");
       Payload.accountId := VString (js "ACCT123");
       Payload.byteLength := VUndefined;
       Payload.newByteLength := VNumber (Number.of_Z 12);
       Payload.oldByteLength := VNull;
       Payload.numberOfObjects := VUndefined |}.
Proof. reflexivity. Qed.

(** ** The whole of [listMetrics] *)

Lemma send_network (q : QueryRequest.t) :
  result (send q) = Return tt
  /\ filter is_network_event (trace (send q)) = network_events q
  /\ without_info (trace (send q)) = network_events q.
Proof.
  unfold send. rewrite _listMetrics_trace.
  destruct (QueryRequest.verbose q); repeat split; reflexivity.
Qed.

Lemma chosen_metric_value (metricType : option jsstring) (c : Commander.t) (m : jsstring) :
  chosen_metric metricType c = Some m ->
  m = if strict_eq metricType (js "buckets") then js "buckets"
      else ToString (Commander.metric c).
Proof.
  unfold chosen_metric.
  destruct (strict_eq metricType (js "buckets")); [congruence|].
  destruct (strict_eq (Commander.metric c) (js "buckets")) eqn:Hb.
  { apply strict_eq_true in Hb. rewrite Hb. intros [= <-]. reflexivity. }
  destruct (strict_eq (Commander.metric c) (js "accounts")) eqn:Ha; [|discriminate].
  apply strict_eq_true in Ha. rewrite Ha. intros [= <-]. reflexivity.
Qed.

(** The whole of [listMetrics]: the first failing check rejects the
    invocation, and when none fails [_listMetrics] is called with the
    arguments [query_of] reads off the options. *)
Lemma buildQueryRequest_diagnostic (metricType : option jsstring) (c : Commander.t) :
  buildQueryRequest metricType c =
  match diagnostic metricType c with
  | Some msg => reject msg
  | None => ret (query_of metricType c)
  end.
Proof.
  unfold diagnostic, buildQueryRequest. rewrite checkOptions_spec.
  destruct (chosen_metric metricType c) as [m|] eqn:Hm; [|reflexivity].
  destruct (first_missing (required metricType c m)) as [k|] eqn:Hreq; [reflexivity|].
  rewrite bind_ret.
  assert (Hin : In (m, Commander.get c m) (required metricType c m)).
  { unfold required. apply in_or_app. right. apply in_or_app. right. now left. }
  apply (first_missing_none _ Hreq) in Hin.
  apply truthy_some in Hin as (s & Hs & _).
  apply chosen_metric_value in Hm.
  unfold query_of. rewrite <- Hm, Hs.
  rewrite parseTimeRange_spec.
  destruct (Commander.recent c); [reflexivity|].
  destruct (parses (Commander.start c)); [|reflexivity].
  destruct (truthy (Commander.end_ c)); [|reflexivity].
  destruct (parses (Commander.end_ c)); reflexivity.
Qed.

Lemma listMetrics_diagnostic (metricType : option jsstring) (c : Commander.t) :
  listMetrics metricType c =
  match diagnostic metricType c with
  | Some msg => reject msg
  | None => send (query_of metricType c)
  end.
Proof.
  unfold listMetrics. rewrite buildQueryRequest_diagnostic.
  destruct (diagnostic metricType c); [reflexivity|apply bind_ret].
Qed.

Lemma checkOptions_passes (metricType : option jsstring) (c : Commander.t) (m : jsstring) :
  checkOptions metricType c = ([], Return m) ->
  chosen_metric metricType c = Some m
  /\ first_missing (required metricType c m) = None.
Proof.
  rewrite checkOptions_spec.
  destruct (chosen_metric metricType c) as [m'|]; [|discriminate].
  destruct (first_missing (required metricType c m')) as [k|] eqn:E; [discriminate|].
  intros [= <-]. split; [reflexivity|exact E].
Qed.

(** A start that parses to NaN or zero, and a non-empty end that does,
    end a listing that is not recent. *)
Lemma falsy_range_exits (metricType : option jsstring) (c : Commander.t) :
  Commander.recent c = false ->
  (parses (Commander.start c) = false ->
   (exists msg, listMetrics metricType c = ([Log Error msg []; OutputHelp], Exit 1))
   /\ (forall m, checkOptions metricType c = ([], Return m) ->
       listMetrics metricType c
       = ([Log Error (js "start must be a number") []; OutputHelp], Exit 1)))
  /\ (parses (Commander.start c) = true ->
      truthy (Commander.end_ c) = true ->
      parses (Commander.end_ c) = false ->
      (exists msg, listMetrics metricType c = ([Log Error msg []; OutputHelp], Exit 1))
      /\ (forall m, checkOptions metricType c = ([], Return m) ->
          listMetrics metricType c
          = ([Log Error (js "end must be a number") []; OutputHelp], Exit 1))).
Proof.
  intros Hrecent.
  assert (Hstart : parses (Commander.start c) = false ->
                   parseTimeRange c = reject (js "start must be a number")).
  { intros H. rewrite parseTimeRange_spec, Hrecent, H. reflexivity. }
  assert (Hend : parses (Commander.start c) = true ->
                 truthy (Commander.end_ c) = true ->
                 parses (Commander.end_ c) = false ->
                 parseTimeRange c = reject (js "end must be a number")).
  { intros H1 H2 H3. rewrite parseTimeRange_spec, Hrecent, H1, H2, H3. reflexivity. }
  assert (Hreject : forall msg,
            parseTimeRange c = reject msg ->
            (exists msg', listMetrics metricType c = ([Log Error msg' []; OutputHelp], Exit 1))
            /\ (forall m, checkOptions metricType c = ([], Return m) ->
                listMetrics metricType c = ([Log Error msg []; OutputHelp], Exit 1))).
  { intros msg Hr. split.
    - destruct (listMetrics_cases metricType c) as [(q & Hq & _)|H]; [|exact H].
      apply buildQueryRequest_returns in Hq as (_ & _ & range & _ & _ & _ & _ & _ & Hq & _).
      rewrite Hr in Hq. discriminate.
    - intros m Hm. unfold listMetrics, buildQueryRequest.
      rewrite Hm. change (@nil event, Return m) with (ret m).
      rewrite bind_ret, Hr. reflexivity. }
  split; [intros H; apply Hreject, Hstart, H|].
  intros H1 H2 H3; apply Hreject, Hend; assumption.
Qed.

(** * The claims *)

(** C1.  In an invocation with [--recent], the values given for
    [--start] and [--end] change nothing: whatever they are, the program
    does the same, and it is not an error to give them.  Every body it
    writes to the request is the serialisation of an object whose one
    key is the metric kind, ['buckets'] or ['accounts']; the object has
    no [timeRange] key, and (the resource names being strings of 16-bit
    code units) it is the object [JSON.parse] reads back from the
    body. *)
Theorem recent_body_without_timeRange (metricType : option jsstring) (c : Commander.t) :
  Commander.recent c = true ->
  (forall s e, listMetrics metricType (Commander.with_range c s e) = listMetrics metricType c)
  /\ (forall body,
        In body (written_bodies (trace (listMetrics metricType c))) ->
        exists metric resources,
          (metric = js "buckets" \/ metric = js "accounts")
          /\ body = JSON_stringify (JObj [(metric, JArr (map JStr resources))])
          /\ own_keys [(metric, JArr (map JStr resources))] = [metric]
          /\ obj_has (js "timeRange") [(metric, JArr (map JStr resources))] = false
          /\ (Forall (Forall code_unit) resources ->
              JSON_parse body = Some (JObj [(metric, JArr (map JStr resources))]))).
Proof.
  intros Hrecent. split.
  - intros s e.
    unfold listMetrics, buildQueryRequest.
    rewrite !checkOptions_spec, !parseTimeRange_spec.
    unfold chosen_metric, required, Commander.get.
    cbn [Commander.with_range Commander.host Commander.port Commander.accessKey
         Commander.secretKey Commander.metric Commander.buckets Commander.accounts
         Commander.recent Commander.verbose Commander.ssl].
    rewrite Hrecent. reflexivity.
  - intros body Hin.
    destruct (listMetrics_cases metricType c) as [(q & Hq & E)|[msg E]];
      rewrite E in Hin; [|destruct Hin].
    apply buildQueryRequest_returns in Hq
      as (m & s & range & _ & Hm & _ & _ & _ & _ & ->).
    unfold send in Hin.
    cbn [QueryRequest.host QueryRequest.port QueryRequest.metric
         QueryRequest.resources QueryRequest.timeRange QueryRequest.accessKey
         QueryRequest.secretKey QueryRequest.verbose QueryRequest.recent
         QueryRequest.ssl] in Hin.
    rewrite _listMetrics_body, Hrecent in Hin.
    destruct Hin as [<-|[]].
    exists m, (split comma s).
    apply chosen_metric_allowed in Hm.
    split; [exact Hm|].
    split; [destruct Hm as [-> | ->]; reflexivity|].
    split; [destruct Hm as [-> | ->]; reflexivity|].
    split; [destruct Hm as [-> | ->]; reflexivity|].
    intros Hwf.
    assert (Hbody : obj_assign m (JArr (map JStr (split comma s))) []
                    = [(m, JArr (map JStr (split comma s)))])
      by (destruct Hm as [-> | ->]; reflexivity).
    rewrite Hbody. now apply parse_recent_body.
Qed.

Lemma recent_body_without_timeRange_witness :
  Commander.recent recent_options = true
  /\ listMetrics None (Commander.with_range recent_options None None)
     = listMetrics None recent_options
  /\ written_bodies (trace (listMetrics None recent_options))
     = [js "{" ++ quoted "accounts" ++ js ":[" ++ quoted "a" ++ js ","
        ++ quoted "" ++ js "," ++ quoted "b" ++ js "]}"].
Proof.
  split; [reflexivity|]. split.
  - exact (proj1 (recent_body_without_timeRange None recent_options eq_refl) None None).
  - vm_compute. reflexivity.
Defined.

(** C2 (as amended).  With metric ['buckets'], resources [b1] and [b2],
    [recent] false and the time range 100 to 200, the one body written
    to the request is [{"timeRange":[100,200],"buckets":["b1","b2"]}]:
    [timeRange] is the first key, because the object is created with it
    and the metric kind is assigned afterwards. *)
Theorem buckets_range_body (host port accessKey secretKey : option jsstring)
    (verbose ssl : bool) :
  written_bodies
    (trace (_listMetrics host port (js "buckets") [js "b1"; js "b2"]
              [Number.of_Z 100; Number.of_Z 200] accessKey secretKey verbose false ssl))
  = [js "{" ++ quoted "timeRange" ++ js ":[100,200]," ++ quoted "buckets" ++ js ":["
     ++ quoted "b1" ++ js "," ++ quoted "b2" ++ js "]}"].
Proof. rewrite _listMetrics_body. vm_compute. reflexivity. Qed.

(** C2 as stated fails: the body is not the text with [buckets] first. *)
Lemma buckets_range_body_differs :
  written_bodies
    (trace (_listMetrics None None (js "buckets") [js "b1"; js "b2"]
              [Number.of_Z 100; Number.of_Z 200] None None false false false))
  <> [js "{" ++ quoted "buckets" ++ js ":[" ++ quoted "b1" ++ js "," ++ quoted "b2"
      ++ js "]," ++ quoted "timeRange" ++ js ":[100,200]}"].
Proof. vm_compute. discriminate. Qed.

(** The two texts are the same object to a reader: [JSON.parse] gives
    the same members, in the order each text has them. *)
Example buckets_range_members :
  JSON_parse (js "{" ++ quoted "timeRange" ++ js ":[100,200]," ++ quoted "buckets"
              ++ js ":[" ++ quoted "b1" ++ js "," ++ quoted "b2" ++ js "]}")
  = Some (JObj [(js "timeRange", JArr [JNum (Number.of_Z 100); JNum (Number.of_Z 200)]);
                (js "buckets", JArr [JStr (js "b1"); JStr (js "b2")])])
  /\ JSON_parse (js "{" ++ quoted "buckets" ++ js ":[" ++ quoted "b1" ++ js ","
                 ++ quoted "b2" ++ js "]," ++ quoted "timeRange" ++ js ":[100,200]}")
     = Some (JObj [(js "buckets", JArr [JStr (js "b1"); JStr (js "b2")]);
                   (js "timeRange", JArr [JNum (Number.of_Z 100); JNum (Number.of_Z 200)])]).
Proof. vm_compute. split; reflexivity. Qed.

(** C3 (as amended).  When [listMetrics] gets as far as calling
    [_listMetrics], the arguments it passes have a non-empty list of
    resources; with [recent] the time range is empty; without it the
    time range has one or two entries, each of them a Number that is
    neither NaN nor zero.  Nothing is said on the order of start and
    end. *)
Theorem query_request_shape (metricType : option jsstring) (c : Commander.t)
    (tr : list event) (q : QueryRequest.t) :
  buildQueryRequest metricType c = (tr, Return q) ->
  listMetrics metricType c = send q
  /\ QueryRequest.resources q <> []
  /\ (QueryRequest.recent q = true -> QueryRequest.timeRange q = [])
  /\ (QueryRequest.recent q = false ->
      (List.length (QueryRequest.timeRange q) = 1%nat
       \/ List.length (QueryRequest.timeRange q) = 2%nat)
      /\ Forall (fun x => Number.to_boolean x = true) (QueryRequest.timeRange q)).
Proof.
  intros Hq. split.
  { unfold listMetrics. rewrite Hq.
    pose proof (buildQueryRequest_returns _ _ _ _ Hq) as (_ & _ & _ & -> & _).
    apply (bind_ret q send). }
  apply buildQueryRequest_returns in Hq
    as (m & s & range & _ & _ & _ & _ & _ & Hrange & ->).
  apply parseTimeRange_returns in Hrange as (_ & Hrec & Hnot).
  cbn [QueryRequest.resources QueryRequest.recent QueryRequest.timeRange].
  split; [apply split_not_nil|]. split; assumption.
Qed.

Lemma query_request_shape_witness :
  buildQueryRequest None example_options = ([], Return example_request)
  /\ listMetrics None example_options = send example_request.
Proof.
  assert (H : buildQueryRequest None example_options = ([], Return example_request))
    by (vm_compute; reflexivity).
  split; [exact H|].
  exact (proj1 (query_request_shape None example_options _ _ H)).
Defined.

(** C3 as stated fails: with [--start 200 --end 100] the request goes
    out with the time range [200, 100], start above end. *)
Lemma descending_range_reaches_transport :
  buildQueryRequest None descending_options = ([], Return descending_request)
  /\ listMetrics None descending_options = send descending_request
  /\ ~ QueryRequest_invariant descending_request.
Proof.
  split; [vm_compute; reflexivity|].
  split; [vm_compute; reflexivity|].
  intros (_ & _ & H).
  destruct (H eq_refl) as [_ Hle].
  specialize (Hle _ _ eq_refl). vm_compute in Hle. discriminate.
Qed.

(** C4 (as amended).  Without [--recent]: when [Number.parseInt] of the
    text of [--start] is NaN or zero, the program logs one diagnostic,
    shows the help and exits with code 1, and when the options checked
    before are all there the diagnostic is [start must be a number]; the
    same holds for [--end] when start is good and a non-empty end is
    given, with the diagnostic [end must be a number].  The parse is NaN
    or zero exactly when the digits the text begins with (after white
    space and one sign) are none or make the integer zero; what follows
    those digits is not looked at.  A literal [0] is such a text: as
    start it ends the run with code 1 as a missing start does, as end it
    ends the run with code 1 whenever start is good.  An end that is
    absent or empty is not an error. *)
Theorem invalid_range_rejected (metricType : option jsstring) (c : Commander.t) :
  Commander.recent c = false ->
  (parses (Commander.start c) = false ->
   (exists msg, listMetrics metricType c = ([Log Error msg []; OutputHelp], Exit 1))
   /\ (forall m, checkOptions metricType c = ([], Return m) ->
       listMetrics metricType c
       = ([Log Error (js "start must be a number") []; OutputHelp], Exit 1)))
  /\ (parses (Commander.start c) = true ->
      truthy (Commander.end_ c) = true ->
      parses (Commander.end_ c) = false ->
      (exists msg, listMetrics metricType c = ([Log Error msg []; OutputHelp], Exit 1))
      /\ (forall m, checkOptions metricType c = ([], Return m) ->
          listMetrics metricType c
          = ([Log Error (js "end must be a number") []; OutputHelp], Exit 1)))
  /\ (forall v, parses v = false <->
                Number.parseInt (ToString v) = Number.NaN
                \/ exists neg e, Number.parseInt (ToString v) = Number.Fin neg 0 e)
  /\ (forall v, parses v = false <->
                Number.digits_value
                  (Number.digits_prefix (Number.unsigned_part (ToString v))) = 0)
  /\ parses (Some (js "0")) = false
  /\ (forall e, result (listMetrics metricType (Commander.with_range c (Some (js "0")) e))
                = Exit 1)
  /\ (forall e, result (listMetrics metricType (Commander.with_range c None e)) = Exit 1)
  /\ (forall s, parses s = true ->
                result (listMetrics metricType (Commander.with_range c s (Some (js "0"))))
                = Exit 1)
  /\ (parses (Commander.start c) = true ->
      truthy (Commander.end_ c) = false ->
      forall m, checkOptions metricType c = ([], Return m) ->
      result (listMetrics metricType c) = Return tt).
Proof.
  intros Hrecent.
  destruct (falsy_range_exits metricType c Hrecent) as [Hstart Hend].
  split; [exact Hstart|]. split; [exact Hend|].
  split; [intros v; apply to_boolean_false|].
  split; [intros v; apply parseInt_falsy|].
  split; [vm_compute; reflexivity|].
  split.
  { intros e.
    destruct (falsy_range_exits metricType (Commander.with_range c (Some (js "0")) e)
                Hrecent) as [H _].
    destruct (H eq_refl) as [[msg E] _]. now rewrite E. }
  split.
  { intros e.
    destruct (falsy_range_exits metricType (Commander.with_range c None e)
                Hrecent) as [H _].
    destruct (H eq_refl) as [[msg E] _]. now rewrite E. }
  split.
  { intros s Hs.
    destruct (falsy_range_exits metricType (Commander.with_range c s (Some (js "0")))
                Hrecent) as [_ H].
    destruct (H Hs eq_refl eq_refl) as [[msg E] _]. now rewrite E. }
  intros Hs He m Hm.
  apply checkOptions_passes in Hm as [Hm Hreq].
  rewrite listMetrics_diagnostic. unfold diagnostic.
  rewrite Hm, Hreq, Hrecent, Hs, He. cbn [negb andb].
  apply send_network.
Qed.

Lemma invalid_range_rejected_witness :
  Commander.recent zero_start_options = false
  /\ listMetrics None zero_start_options
     = ([Log Error (js "start must be a number") []; OutputHelp], Exit 1)
  /\ listMetrics None zero_end_options
     = ([Log Error (js "end must be a number") []; OutputHelp], Exit 1).
Proof.
  split; [reflexivity|]. split.
  - destruct (invalid_range_rejected None zero_start_options eq_refl) as [H _].
    apply (proj2 (H eq_refl) (js "buckets")). vm_compute. reflexivity.
  - destruct (invalid_range_rejected None zero_end_options eq_refl) as (_ & H & _).
    apply (proj2 (H eq_refl eq_refl eq_refl) (js "buckets")). vm_compute. reflexivity.
Defined.

(** C4 as stated fails: [--start 100abc] is not a base-10 integer, and
    the listing is sent all the same, with the time range [100]; and an
    end supplied as the empty string, which is no integer either, is
    passed over. *)
Lemma trailing_text_reaches_transport :
  (written_bodies (trace (listMetrics None trailing_text_options))
   = [js "{" ++ quoted "timeRange" ++ js ":[100]," ++ quoted "buckets" ++ js ":["
      ++ quoted "b1" ++ js "," ++ quoted "b2" ++ js "]}"]
   /\ ~ range_contract None trailing_text_options)
  /\ (written_bodies (trace (listMetrics None empty_end_options))
      = [js "{" ++ quoted "timeRange" ++ js ":[100]," ++ quoted "buckets" ++ js ":["
         ++ quoted "b1" ++ js "," ++ quoted "b2" ++ js "]}"]
      /\ ~ range_contract None empty_end_options).
Proof.
  split; split; try (vm_compute; reflexivity).
  - intros H.
    assert (E : result (listMetrics None trailing_text_options) = Return tt)
      by (vm_compute; reflexivity).
    rewrite H in E; [discriminate|reflexivity|left; vm_compute; reflexivity].
  - intros H.
    assert (E : result (listMetrics None empty_end_options) = Return tt)
      by (vm_compute; reflexivity).
    rewrite H in E; [discriminate|reflexivity|].
    right. split; [discriminate|vm_compute; reflexivity].
Qed.

(** C5.  In the generic mode (the argument of [listMetrics] is not
    ['buckets']), when [--metric] is neither ['buckets'] nor
    ['accounts'] (absent included), the program logs [metric must be
    buckets or accounts], shows the help and exits with code 1; it does
    nothing else, so no request is built, signed or written. *)
Theorem unknown_metric_rejected (metricType : option jsstring) (c : Commander.t) :
  metricType <> Some (js "buckets") ->
  Commander.metric c <> Some (js "buckets") ->
  Commander.metric c <> Some (js "accounts") ->
  listMetrics metricType c
  = ([Log Error (js "metric must be buckets or accounts") []; OutputHelp], Exit 1)
  /\ filter is_network_event (trace (listMetrics metricType c)) = [].
Proof.
  intros Hmt Hb Ha.
  apply strict_eq_false in Hmt, Hb, Ha.
  assert (E : listMetrics metricType c
              = ([Log Error (js "metric must be buckets or accounts") []; OutputHelp], Exit 1)).
  { unfold listMetrics, buildQueryRequest. rewrite checkOptions_spec.
    unfold chosen_metric. rewrite Hmt, Hb, Ha. reflexivity. }
  split; [exact E|]. rewrite E. reflexivity.
Qed.

Lemma unknown_metric_rejected_witness :
  (None <> Some (js "buckets")
   /\ Commander.metric unknown_metric_options <> Some (js "buckets")
   /\ Commander.metric unknown_metric_options <> Some (js "accounts"))
  /\ result (listMetrics None unknown_metric_options) = Exit 1.
Proof.
  assert (H1 : @None jsstring <> Some (js "buckets")) by discriminate.
  assert (H2 : Commander.metric unknown_metric_options <> Some (js "buckets"))
    by (vm_compute; discriminate).
  assert (H3 : Commander.metric unknown_metric_options <> Some (js "accounts"))
    by (vm_compute; discriminate).
  split; [auto|].
  destruct (unknown_metric_rejected None unknown_metric_options H1 H2 H3) as [E _].
  rewrite E. reflexivity.
Defined.

(** C6.  Splitting a resource string on commas gives as many pieces as
    there are commas, plus one; the pieces joined by commas give the
    string back and no piece holds a comma, so they are the segments of
    the string in their order, the empty ones too; [a,,b] gives [a], the
    empty string and [b].  An invocation that passes the checks does
    call [_listMetrics], and the resources it passes are these pieces
    of the resource-list option of the metric. *)
Theorem resources_split (s : jsstring) :
  List.length (split comma s) = (count_occ_unit comma s + 1)%nat
  /\ join [comma] (split comma s) = s
  /\ Forall (fun piece => ~ In comma piece) (split comma s)
  /\ split comma (js "a,,b") = [js "a"; js ""; js "b"]
  /\ (forall metricType c tr q,
        buildQueryRequest metricType c = (tr, Return q) ->
        exists field,
          Commander.get c (QueryRequest.metric q) = Some field
          /\ QueryRequest.resources q = split comma field)
  /\ (forall metricType c,
        diagnostic metricType c = None ->
        exists q field,
          buildQueryRequest metricType c = ([], Return q)
          /\ listMetrics metricType c = send q
          /\ In (TransportRequest (QueryRequest.ssl q)
                   {| Options.host := QueryRequest.host q;
                      Options.port := QueryRequest.port q;
                      Options.method := js "POST";
                      Options.path := js "/" ++ QueryRequest.metric q ++ js "?Action="
                                      ++ (if QueryRequest.recent q
                                          then js "ListRecentMetrics"
                                          else js "ListMetrics");
                      Options.headers := [(js "content-type", js "application/json");
                                          (js "cache-control", js "no-cache")];
                      Options.rejectUnauthorized := false |})
                (trace (listMetrics metricType c))
          /\ Commander.get c (QueryRequest.metric q) = Some field
          /\ QueryRequest.resources q = split comma field
          /\ List.length (QueryRequest.resources q)
             = (count_occ_unit comma field + 1)%nat
          /\ join [comma] (QueryRequest.resources q) = field).
Proof.
  split; [apply split_length|].
  split; [apply join_split|].
  split; [apply split_pieces_free|].
  split; [reflexivity|].
  split.
  { intros metricType c tr q Hq.
    apply buildQueryRequest_returns in Hq
      as (m & field & range & _ & _ & _ & Hfield & _ & _ & ->).
    exists field. split; [exact Hfield|reflexivity]. }
  intros metricType c D.
  pose proof (buildQueryRequest_diagnostic metricType c) as Hq.
  pose proof (listMetrics_diagnostic metricType c) as Hl.
  rewrite D in Hq, Hl.
  pose proof (buildQueryRequest_returns _ _ _ _ Hq)
    as (m & field & range & _ & _ & _ & Hfield & _ & _ & E).
  exists (query_of metricType c), field.
  split; [exact Hq|]. split; [exact Hl|].
  split.
  { rewrite Hl. unfold send. rewrite _listMetrics_trace. now left. }
  rewrite E. cbn [QueryRequest.metric QueryRequest.resources].
  split; [exact Hfield|]. split; [reflexivity|].
  split; [apply split_length|apply join_split].
Qed.

Lemma resources_split_witness :
  diagnostic None recent_options = None
  /\ exists q,
       buildQueryRequest None recent_options = ([], Return q)
       /\ listMetrics None recent_options = send q
       /\ QueryRequest.resources q = [js "a"; js ""; js "b"].
Proof.
  assert (D : diagnostic None recent_options = None) by (vm_compute; reflexivity).
  split; [exact D|].
  destruct (resources_split []) as (_ & _ & _ & _ & _ & H).
  destruct (H None recent_options D) as (q & field & Hb & Hl & _ & Hf & Hr & _).
  exists q. split; [exact Hb|]. split; [exact Hl|].
  assert (E : buildQueryRequest None recent_options
              = ([], Return (query_of None recent_options)))
    by (vm_compute; reflexivity).
  rewrite E in Hb. injection Hb as <-.
  rewrite Hr. vm_compute in Hf. injection Hf as <-. reflexivity.
Defined.

(** C7 (as amended).  For a completed response whose body parses as
    JSON: with a status code in [200, 300) the program writes the parsed
    body, printed with an indentation of 2, and then a newline to the
    standard output and exits with code 0; with any other status code it
    logs an error entry that holds the status code and the parsed body
    and exits with code 1.  (In verbose mode the status code and the
    headers are logged first.) *)
Theorem parsed_response_handled (verbose : bool) (r : response) (v : json) :
  JSON_parse (join [] (chunks r)) = Some v ->
  on_response verbose r =
  if (200 <=? statusCode r) && (statusCode r <? 300) then
    (verbose_log verbose r ++ [StdoutWrite (JSON_stringify_pretty v); StdoutWrite [10]],
     Exit 0)
  else
    (verbose_log verbose r
     ++ [Log Error (js "request failed with HTTP Status ")
           [(js "statusCode", LStatus (statusCode r)); (js "body", LBody v)]],
     Exit 1).
Proof.
  intros Hparse. unfold on_response, verbose_log. rewrite Hparse.
  destruct ((200 <=? statusCode r) && (statusCode r <? 300)); destruct verbose; reflexivity.
Qed.

Lemma parsed_response_handled_witness :
  JSON_parse (join [] (chunks access_denied_response))
  = Some (JObj [(js "error", JStr (js "AccessDenied"))])
  /\ on_response false access_denied_response
     = ([Log Error (js "request failed with HTTP Status ")
           [(js "statusCode", LStatus 403);
            (js "body", LBody (JObj [(js "error", JStr (js "AccessDenied"))]))]],
        Exit 1).
Proof.
  assert (H : JSON_parse (join [] (chunks access_denied_response))
              = Some (JObj [(js "error", JStr (js "AccessDenied"))]))
    by (vm_compute; reflexivity).
  split; [exact H|].
  exact (parsed_response_handled false access_denied_response _ H).
Defined.

(** C7 as stated fails: a response with status 204 and an empty body
    writes nothing and does not exit with code 0; the parse of the
    empty text throws. *)
Lemma no_content_breaks_contract :
  on_response false no_content_response = ([], Throw SyntaxError)
  /\ ~ response_contract false no_content_response.
Proof.
  assert (E : on_response false no_content_response = ([], Throw SyntaxError))
    by reflexivity.
  split; [exact E|].
  unfold response_contract. cbn [statusCode no_content_response Z.leb Z.ltb Z.compare
    Pos.compare Pos.compare_cont andb].
  intros (v & tr & H). rewrite E in H. discriminate.
Qed.

(** C8.  The first thing [_listMetrics] does is to open one request on
    the transport, with these options: the method is POST; the path is
    [/], the metric, [?Action=] and the action name; the action name is
    [ListRecentMetrics] when [recent] is true and [ListMetrics] when it
    is false, and the two names differ; the headers hold [content-type:
    application/json] and [cache-control: no-cache]. *)
Theorem request_shape (host port : option jsstring) (metric : jsstring)
    (metricType : list jsstring) (timeRange : list Number.t)
    (accessKey secretKey : option jsstring) (verbose recent ssl : bool) :
  exists options rest action,
    trace (_listMetrics host port metric metricType timeRange accessKey secretKey
             verbose recent ssl)
    = TransportRequest ssl options :: rest
    /\ (forall s o, ~ In (TransportRequest s o) rest)
    /\ Options.method options = js "POST"
    /\ (recent = true -> action = js "ListRecentMetrics")
    /\ (recent = false -> action = js "ListMetrics")
    /\ (action = js "ListRecentMetrics" -> recent = true)
    /\ Options.path options = js "/" ++ metric ++ js "?Action=" ++ action
    /\ obj_get (js "content-type") (Options.headers options) = Some (js "application/json")
    /\ obj_get (js "cache-control") (Options.headers options) = Some (js "no-cache").
Proof.
  rewrite _listMetrics_trace. cbn [trace fst app].
  eexists. eexists. exists (if recent then js "ListRecentMetrics" else js "ListMetrics").
  split; [reflexivity|].
  split.
  { intros s o [H|H]; [discriminate|].
    destruct verbose; simpl in H; intuition discriminate. }
  split; [reflexivity|].
  split; [intros ->; reflexivity|].
  split; [intros ->; reflexivity|].
  split; [destruct recent; [reflexivity|discriminate]|].
  split; [reflexivity|].
  split; reflexivity.
Qed.

(** C9.  [pushMetric] calls the client once, with the action, the
    logger's serialized uids and a payload.  In the payload [accountId]
    is [undefined] when the event has no [authInfo] and the canonical ID
    of the [authInfo] when it has one; [bucket], [byteLength],
    [newByteLength], [oldByteLength] and [numberOfObjects] are the
    values of the event, whatever they are: an absent field stays
    [undefined]. *)
Theorem pushMetric_payload (action : jsstring) (log : Logger) (metricObj : MetricObj.t) :
  let payload := pushMetric Payload.t (fun _ _ p => p) action log metricObj in
  (forall (R : Type) (utapi_pushMetric : jsstring -> jsstring -> Payload.t -> R),
     pushMetric R utapi_pushMetric action log metricObj
     = utapi_pushMetric action (getSerializedUids log) payload)
  /\ (MetricObj.authInfo metricObj = None -> Payload.accountId payload = VUndefined)
  /\ (forall authInfo,
        MetricObj.authInfo metricObj = Some authInfo ->
        Payload.accountId payload = getCanonicalID authInfo)
  /\ Payload.bucket payload = MetricObj.bucket metricObj
  /\ Payload.byteLength payload = MetricObj.byteLength metricObj
  /\ Payload.newByteLength payload = MetricObj.newByteLength metricObj
  /\ Payload.oldByteLength payload = MetricObj.oldByteLength metricObj
  /\ Payload.numberOfObjects payload = MetricObj.numberOfObjects metricObj.
Proof.
  cbv zeta. unfold pushMetric. cbn [Payload.accountId Payload.bucket Payload.byteLength
    Payload.newByteLength Payload.oldByteLength Payload.numberOfObjects].
  split; [reflexivity|].
  split; [intros ->; reflexivity|].
  split; [intros a ->; reflexivity|].
  repeat split.
Qed.

(** C10.  The body is parsed before the status code is looked at: when
    it is not valid JSON, whatever the status code is, the parse throws
    and nothing catches it.  Nothing is written to the standard output,
    no error entry is logged and the process does not end through
    [process.exit]. *)
Theorem malformed_body_throws (verbose : bool) (r : response) :
  JSON_parse (join [] (chunks r)) = None ->
  on_response verbose r = (verbose_log verbose r, Throw SyntaxError)
  /\ (forall msg data, ~ In (Log Error msg data) (trace (on_response verbose r)))
  /\ (forall s, ~ In (StdoutWrite s) (trace (on_response verbose r)))
  /\ (forall code, result (on_response verbose r) <> Exit code).
Proof.
  intros Hparse.
  assert (E : on_response verbose r = (verbose_log verbose r, Throw SyntaxError)).
  { unfold on_response, verbose_log. rewrite Hparse. destruct verbose; reflexivity. }
  rewrite E. split; [reflexivity|].
  unfold trace, result, verbose_log. cbn [fst snd].
  split; [|split].
  - intros msg data. destruct verbose; simpl; intuition discriminate.
  - intros s. destruct verbose; simpl; intuition discriminate.
  - discriminate.
Qed.

Lemma malformed_body_throws_witness :
  JSON_parse (join [] (chunks gateway_error_response)) = None
  /\ on_response false gateway_error_response = ([], Throw SyntaxError).
Proof.
  assert (H : JSON_parse (join [] (chunks gateway_error_response)) = None)
    by (vm_compute; reflexivity).
  split; [exact H|].
  exact (proj1 (malformed_body_throws false gateway_error_response H)).
Defined.

(** * Further properties of [listMetrics], [_listMetrics] and the
      response callback *)

(** X1.  [listMetrics] makes its checks in one order: the metric, the
    required options, start, end.  The first check that fails decides
    the one diagnostic that is logged; then the help is shown, the
    process exits with code 1 and the transport is not touched.  When no
    check fails the function returns, after it has opened one request,
    signed it (empty payload, service [s3], the given keys), written one
    body and ended the request, in that order; in verbose mode one info
    entry is logged besides.  It never throws. *)
Theorem listMetrics_outcome (metricType : option jsstring) (c : Commander.t) :
  match diagnostic metricType c with
  | Some msg =>
      listMetrics metricType c = ([Log Error msg []; OutputHelp], Exit 1)
  | None =>
      buildQueryRequest metricType c = ([], Return (query_of metricType c))
      /\ result (listMetrics metricType c) = Return tt
      /\ filter is_network_event (trace (listMetrics metricType c))
         = network_events (query_of metricType c)
      /\ without_info (trace (listMetrics metricType c))
         = network_events (query_of metricType c)
  end.
Proof.
  rewrite listMetrics_diagnostic, buildQueryRequest_diagnostic.
  destruct (diagnostic metricType c) as [msg|]; [reflexivity|].
  destruct (send_network (query_of metricType c)) as (H1 & H2 & H3).
  repeat split; assumption.
Qed.

Lemma first_missing_split (before after : obj (option jsstring)) (k : jsstring)
    (v : option jsstring) :
  (forall k' v', In (k', v') before -> truthy v' = true) ->
  truthy v = false ->
  first_missing (before ++ (k, v) :: after) = Some k.
Proof.
  intros Hb Hv. induction before as [|[k' v'] before IH]; simpl.
  - now rewrite Hv.
  - rewrite (Hb k' v') by now left. apply IH. intros k'' v'' Hin.
    apply (Hb k'' v''). now right.
Qed.

(** X2.  The options [host], [port], [accessKey], [secretKey], [metric]
    (generic mode), the resource list of the metric and [start] (unless
    recent) are required, in this order: when the metric is an allowed
    one, the first of them that is absent or empty is named in the
    diagnostic [missing required option: ...], whatever comes after it;
    the process exits with code 1. *)
Theorem first_missing_option_named (metricType : option jsstring) (c : Commander.t)
    (m : jsstring) (before after : obj (option jsstring)) (k : jsstring)
    (v : option jsstring) :
  chosen_metric metricType c = Some m ->
  required metricType c m = before ++ (k, v) :: after ->
  (forall k' v', In (k', v') before -> truthy v' = true) ->
  truthy v = false ->
  listMetrics metricType c
  = ([Log Error (js "missing required option: " ++ k) []; OutputHelp], Exit 1).
Proof.
  intros Hm Hreq Hbefore Hv.
  rewrite listMetrics_diagnostic. unfold diagnostic.
  rewrite Hm, Hreq, (first_missing_split before after k v Hbefore Hv). reflexivity.
Qed.

Lemma first_missing_option_named_witness :
  listMetrics None no_port_options
  = ([Log Error (js "missing required option: port") []; OutputHelp], Exit 1).
Proof.
  apply (first_missing_option_named None no_port_options (js "accounts")
           [(js "host", Some (js "localhost"))]
           [(js "accessKey", None); (js "secretKey", Some (js "verySecretKey1"));
            (js "metric", Some (js "accounts")); (js "accounts", Some (js "a1"));
            (js "start", None)]
           (js "port") (Some [])).
  - reflexivity.
  - reflexivity.
  - intros k' v' [H|[]]. injection H as _ <-. reflexivity.
  - reflexivity.
Defined.

(** X3.  In the old style ([listMetrics('buckets')]) the metric is
    ['buckets'] whatever [--metric] holds: the option is not read, the
    resources are the pieces of [--buckets] and the request goes to
    [/buckets]. *)
Theorem legacy_mode_is_buckets (c : Commander.t) :
  (forall m, listMetrics (Some (js "buckets")) (with_metric c m)
             = listMetrics (Some (js "buckets")) c)
  /\ (forall tr q,
        buildQueryRequest (Some (js "buckets")) c = (tr, Return q) ->
        QueryRequest.metric q = js "buckets"
        /\ QueryRequest.resources q = split comma (ToString (Commander.buckets c))
        /\ exists rest,
             trace (listMetrics (Some (js "buckets")) c)
             = TransportRequest (Commander.ssl c)
                 {| Options.host := Commander.host c;
                    Options.port := Commander.port c;
                    Options.method := js "POST";
                    Options.path := js "/buckets?Action="
                                    ++ (if Commander.recent c then js "ListRecentMetrics"
                                        else js "ListMetrics");
                    Options.headers := [(js "content-type", js "application/json");
                                        (js "cache-control", js "no-cache")];
                    Options.rejectUnauthorized := false |} :: rest).
Proof.
  split.
  - intros m. rewrite !listMetrics_diagnostic. reflexivity.
  - intros tr q Hq.
    pose proof (listMetrics_diagnostic (Some (js "buckets")) c) as E.
    rewrite buildQueryRequest_diagnostic in Hq.
    destruct (diagnostic (Some (js "buckets")) c) as [msg|]; [discriminate|].
    injection Hq as <- <-.
    split; [reflexivity|]. split; [reflexivity|].
    rewrite E. unfold send. rewrite _listMetrics_trace.
    eexists. reflexivity.
Qed.

(** X4.  Only the resource option the metric names is read: with the
    metric ['buckets'] the value of [--accounts] changes nothing, with
    the metric ['accounts'] the value of [--buckets] changes nothing. *)
Theorem other_resource_option_ignored (metricType : option jsstring) (c : Commander.t) :
  (chosen_metric metricType c = Some (js "buckets") ->
   forall a, listMetrics metricType (with_accounts c a) = listMetrics metricType c)
  /\ (chosen_metric metricType c = Some (js "accounts") ->
      forall b, listMetrics metricType (with_buckets c b) = listMetrics metricType c).
Proof.
  split; intros Hm x; rewrite !listMetrics_diagnostic.
  - assert (Hv := chosen_metric_value _ _ _ Hm).
    unfold diagnostic, query_of.
    change (chosen_metric metricType (with_accounts c x)) with (chosen_metric metricType c).
    rewrite Hm.
    cbn [with_accounts Commander.host Commander.port Commander.accessKey
         Commander.secretKey Commander.metric Commander.recent Commander.start
         Commander.end_ Commander.verbose Commander.ssl].
    rewrite <- Hv. reflexivity.
  - assert (Hv := chosen_metric_value _ _ _ Hm).
    unfold diagnostic, query_of.
    change (chosen_metric metricType (with_buckets c x)) with (chosen_metric metricType c).
    rewrite Hm.
    cbn [with_buckets Commander.host Commander.port Commander.accessKey
         Commander.secretKey Commander.metric Commander.recent Commander.start
         Commander.end_ Commander.verbose Commander.ssl].
    rewrite <- Hv. reflexivity.
Qed.

(** X5.  A listing that is not recent and passes the checks sends the
    time range as parsed: the Number read from [--start], then the one
    read from [--end] when a non-empty end is given, and nothing else.
    The body is the serialisation of the object with the key
    [timeRange] first and the metric second. *)
Theorem range_listing_body (metricType : option jsstring) (c : Commander.t)
    (tr : list event) (q : QueryRequest.t) :
  buildQueryRequest metricType c = (tr, Return q) ->
  Commander.recent c = false ->
  QueryRequest.timeRange q
  = Number.parseInt (ToString (Commander.start c))
    :: (if truthy (Commander.end_ c)
        then [Number.parseInt (ToString (Commander.end_ c))]
        else [])
  /\ written_bodies (trace (listMetrics metricType c))
     = [JSON_stringify
          (JObj [(js "timeRange", JArr (map JNum (QueryRequest.timeRange q)));
                 (QueryRequest.metric q, JArr (map JStr (QueryRequest.resources q)))])]
  /\ own_keys [(js "timeRange", JArr (map JNum (QueryRequest.timeRange q)));
               (QueryRequest.metric q, JArr (map JStr (QueryRequest.resources q)))]
     = [js "timeRange"; QueryRequest.metric q].
Proof.
  intros Hq Hrecent.
  pose proof (listMetrics_diagnostic metricType c) as E.
  pose proof (buildQueryRequest_returns _ _ _ _ Hq) as (m & _ & _ & _ & Hm & _).
  apply chosen_metric_allowed in Hm as Hallowed.
  apply chosen_metric_value in Hm.
  rewrite buildQueryRequest_diagnostic in Hq.
  destruct (diagnostic metricType c) as [msg|]; [discriminate|].
  injection Hq as <- <-.
  rewrite E. unfold send. rewrite _listMetrics_body.
  unfold query_of.
  cbn [QueryRequest.timeRange QueryRequest.metric QueryRequest.resources
       QueryRequest.recent].
  rewrite Hrecent, <- Hm.
  split; [reflexivity|].
  destruct Hallowed as [-> | ->]; split; reflexivity.
Qed.

Lemma range_listing_body_witness :
  written_bodies (trace (listMetrics None example_options))
  = [js "{" ++ quoted "timeRange" ++ js ":[100,200]," ++ quoted "buckets" ++ js ":["
     ++ quoted "b1" ++ js "," ++ quoted "b2" ++ js "]}"].
Proof.
  assert (H : buildQueryRequest None example_options = ([], Return example_request))
    by (vm_compute; reflexivity).
  destruct (range_listing_body None example_options [] example_request H eq_refl)
    as (_ & -> & _).
  vm_compute. reflexivity.
Defined.

Lemma diagnostic_verbose (metricType : option jsstring) (c : Commander.t) (v : bool) :
  diagnostic metricType (with_verbose c v) = diagnostic metricType c.
Proof. reflexivity. Qed.

Lemma network_events_verbose (metricType : option jsstring) (c : Commander.t) (v : bool) :
  network_events (query_of metricType (with_verbose c v))
  = network_events (query_of metricType c).
Proof. reflexivity. Qed.

(** X6.  The verbose flag adds entries logged at level info and nothing
    else.  For [listMetrics]: the outcome, and the trace without those
    entries, are the same with the flag set or not.  For the response
    callback: the outcome is the same, and the trace without those
    entries is the trace of the run that is not verbose. *)
Theorem verbose_adds_info_only (metricType : option jsstring) (c : Commander.t)
    (v : bool) (r : response) :
  result (listMetrics metricType (with_verbose c v)) = result (listMetrics metricType c)
  /\ without_info (trace (listMetrics metricType (with_verbose c v)))
     = without_info (trace (listMetrics metricType c))
  /\ result (on_response v r) = result (on_response false r)
  /\ without_info (trace (on_response v r)) = trace (on_response false r).
Proof.
  assert (L : result (listMetrics metricType (with_verbose c v))
              = result (listMetrics metricType c)
              /\ without_info (trace (listMetrics metricType (with_verbose c v)))
                 = without_info (trace (listMetrics metricType c))).
  { rewrite !listMetrics_diagnostic, diagnostic_verbose.
    destruct (diagnostic metricType c) as [msg|]; [split; reflexivity|].
    destruct (send_network (query_of metricType (with_verbose c v))) as (R1 & _ & T1).
    destruct (send_network (query_of metricType c)) as (R2 & _ & T2).
    rewrite R1, R2, T1, T2, network_events_verbose. split; reflexivity. }
  destruct L as [L1 L2]. split; [exact L1|]. split; [exact L2|].
  unfold on_response.
  destruct (JSON_parse (join [] (chunks r))) as [body|];
    destruct ((200 <=? statusCode r) && (statusCode r <? 300));
    destruct v; split; reflexivity.
Qed.

(** ** Empty and padded option values *)

Lemma truthy_blank (v : option jsstring) : truthy (blank v) = truthy v.
Proof. destruct v as [[|x l]|]; reflexivity. Qed.

Lemma blank_truthy (v : option jsstring) : truthy v = true -> blank v = v.
Proof. destruct v as [[|x l]|]; [discriminate|reflexivity|reflexivity]. Qed.

Lemma strict_eq_blank (v : option jsstring) (x : Z) (s : jsstring) :
  strict_eq (blank v) (x :: s) = strict_eq v (x :: s).
Proof. destruct v as [[|y l]|]; reflexivity. Qed.

Lemma parses_blank (v : option jsstring) : parses (blank v) = parses v.
Proof. destruct v as [[|x l]|]; reflexivity. Qed.

Lemma get_blank (c : Commander.t) (m : jsstring) :
  Commander.get (without_blanks c) m = blank (Commander.get c m).
Proof.
  unfold Commander.get.
  destruct (jsstring_eqb m (js "buckets")); [reflexivity|].
  destruct (jsstring_eqb m (js "accounts")); reflexivity.
Qed.

Lemma first_missing_app (o1 o2 : obj (option jsstring)) :
  first_missing (o1 ++ o2)
  = match first_missing o1 with
    | Some k => Some k
    | None => first_missing o2
    end.
Proof.
  induction o1 as [|[k v] o1 IH]; simpl; [reflexivity|].
  destruct (truthy v); [exact IH|reflexivity].
Qed.

Lemma first_missing_blank (o : obj (option jsstring)) :
  first_missing (map (fun p => (fst p, blank (snd p))) o) = first_missing o.
Proof.
  induction o as [|[k v] o IH]; simpl; [reflexivity|].
  rewrite truthy_blank, IH. reflexivity.
Qed.

Lemma chosen_metric_blank (metricType : option jsstring) (c : Commander.t) :
  chosen_metric metricType (without_blanks c) = chosen_metric metricType c.
Proof.
  unfold chosen_metric. cbn [without_blanks Commander.metric].
  change (js "buckets") with (98 :: js "uckets").
  change (js "accounts") with (97 :: js "ccounts").
  rewrite !strict_eq_blank. reflexivity.
Qed.

Lemma required_blank (metricType : option jsstring) (c : Commander.t) (m : jsstring) :
  required metricType (without_blanks c) m
  = map (fun p => (fst p, blank (snd p))) (required metricType c m).
Proof.
  unfold required. rewrite get_blank.
  cbn [without_blanks Commander.host Commander.port Commander.accessKey
       Commander.secretKey Commander.metric Commander.recent Commander.start].
  destruct (strict_eq metricType (js "buckets")); destruct (Commander.recent c);
    reflexivity.
Qed.

Lemma diagnostic_blank (metricType : option jsstring) (c : Commander.t) :
  diagnostic metricType (without_blanks c) = diagnostic metricType c.
Proof.
  unfold diagnostic. rewrite chosen_metric_blank.
  destruct (chosen_metric metricType c) as [m|]; [|reflexivity].
  rewrite required_blank, first_missing_blank.
  cbn [without_blanks Commander.recent Commander.start Commander.end_].
  rewrite !parses_blank, truthy_blank. reflexivity.
Qed.

(** What passing the checks tells of the options. *)
Lemma accepted_options (metricType : option jsstring) (c : Commander.t) :
  diagnostic metricType c = None ->
  truthy (Commander.host c) = true
  /\ truthy (Commander.port c) = true
  /\ truthy (Commander.accessKey c) = true
  /\ truthy (Commander.secretKey c) = true
  /\ (strict_eq metricType (js "buckets") = false -> truthy (Commander.metric c) = true)
  /\ truthy (Commander.get c (QueryRequest.metric (query_of metricType c))) = true
  /\ (Commander.recent c = false ->
      truthy (Commander.start c) = true
      /\ parses (Commander.start c) = true
      /\ (truthy (Commander.end_ c) = true -> parses (Commander.end_ c) = true)).
Proof.
  unfold diagnostic.
  destruct (chosen_metric metricType c) as [m|] eqn:Hm; [|discriminate].
  destruct (first_missing (required metricType c m)) as [k|] eqn:Hreq; [discriminate|].
  intros Hrange.
  pose proof (first_missing_none _ Hreq) as Hall.
  apply chosen_metric_value in Hm.
  change (QueryRequest.metric (query_of metricType c))
    with (if strict_eq metricType (js "buckets") then js "buckets"
          else ToString (Commander.metric c)).
  rewrite <- Hm.
  unfold required in Hall.
  split; [apply (Hall (js "host")); simpl; tauto|].
  split; [apply (Hall (js "port")); simpl; tauto|].
  split; [apply (Hall (js "accessKey")); simpl; tauto|].
  split; [apply (Hall (js "secretKey")); simpl; tauto|].
  split.
  { intros Hmt. rewrite Hmt in Hall. apply (Hall (js "metric")). simpl. tauto. }
  split.
  { apply (Hall m). apply in_or_app. right. apply in_or_app. right. now left. }
  intros Hrecent. rewrite Hrecent in Hall, Hrange.
  split.
  { apply (Hall (js "start")). do 3 (apply in_or_app; right). now left. }
  destruct (parses (Commander.start c)); [|discriminate].
  split; [reflexivity|].
  intros He. rewrite He in Hrange.
  destruct (parses (Commander.end_ c)); [reflexivity|discriminate].
Qed.

Lemma query_of_blank (metricType : option jsstring) (c : Commander.t) :
  diagnostic metricType c = None ->
  query_of metricType (without_blanks c) = query_of metricType c.
Proof.
  intros D.
  destruct (accepted_options metricType c D) as (Hh & Hp & Ha & Hs & Hm & Hg & Hr).
  unfold query_of in *. cbn [QueryRequest.metric] in Hg.
  rewrite get_blank.
  cbn [without_blanks Commander.host Commander.port Commander.accessKey
       Commander.secretKey Commander.metric Commander.recent Commander.start
       Commander.end_ Commander.verbose Commander.ssl].
  rewrite (blank_truthy _ Hh), (blank_truthy _ Hp), (blank_truthy _ Ha),
    (blank_truthy _ Hs).
  assert (Hmetric : (if strict_eq metricType (js "buckets") then js "buckets"
                     else ToString (blank (Commander.metric c)))
                    = if strict_eq metricType (js "buckets") then js "buckets"
                      else ToString (Commander.metric c)).
  { destruct (strict_eq metricType (js "buckets")); [reflexivity|].
    now rewrite (blank_truthy _ (Hm eq_refl)). }
  rewrite Hmetric, (blank_truthy _ Hg).
  destruct (Commander.recent c); [reflexivity|].
  destruct (Hr eq_refl) as (Hst & _ & _).
  rewrite (blank_truthy _ Hst), truthy_blank.
  destruct (truthy (Commander.end_ c)) eqn:He; [|reflexivity].
  now rewrite (blank_truthy _ He).
Qed.

(** X7.  An option given as the empty string counts as an option that
    is not given: with every empty value taken away, [listMetrics] does
    exactly the same.  So an empty required option is reported as
    missing, and an empty [--end] is passed over without a word. *)
Theorem empty_option_is_absent (metricType : option jsstring) (c : Commander.t) :
  listMetrics metricType (without_blanks c) = listMetrics metricType c.
Proof.
  rewrite !listMetrics_diagnostic, diagnostic_blank.
  destruct (diagnostic metricType c) as [msg|] eqn:D; [reflexivity|].
  now rewrite query_of_blank.
Qed.

Lemma digit_is_plain (d : Z) :
  is_digit d = true ->
  Number.is_white_space d = false /\ (d =? 43) = false /\ (d =? 45) = false.
Proof.
  unfold is_digit, Number.is_white_space. intros H.
  apply andb_prop in H as [H1 H2]. apply Z.leb_le in H1, H2.
  repeat rewrite (proj2 (Z.eqb_neq d _)) by lia.
  rewrite (proj2 (Z.leb_gt 8192 d)) by lia. repeat split.
Qed.

Lemma digits_prefix_app (ds t : jsstring) :
  forallb is_digit ds = true ->
  match t with
  | [] => True
  | x :: _ => is_digit x = false
  end ->
  Number.digits_prefix (ds ++ t) = ds.
Proof.
  intros Hds Ht. induction ds as [|d ds IH]; simpl in *.
  - destruct t as [|x t]; [reflexivity|]. simpl. now rewrite Ht.
  - apply andb_prop in Hds as [Hd Hds]. rewrite Hd. f_equal. now apply IH.
Qed.

(** [parseInt] reads the digits a text starts with and drops the rest. *)
Lemma parseInt_leading_digits (ds t : jsstring) :
  ds <> [] ->
  forallb is_digit ds = true ->
  match t with
  | [] => True
  | x :: _ => is_digit x = false
  end ->
  Number.parseInt (ds ++ t) = Number.parseInt ds.
Proof.
  intros Hne Hds Ht.
  destruct ds as [|d ds]; [contradiction|].
  pose proof Hds as Hall. simpl in Hds. apply andb_prop in Hds as [Hd _].
  destruct (digit_is_plain d Hd) as (Hw & Hplus & Hminus).
  assert (U : forall rest, Number.unsigned_part (d :: rest) = d :: rest).
  { intros rest. unfold Number.unsigned_part. cbn [Number.trim_start].
    rewrite Hw, Hplus, Hminus. reflexivity. }
  assert (N : forall rest, Number.is_negative (d :: rest) = false).
  { intros rest. unfold Number.is_negative. cbn [Number.trim_start].
    rewrite Hw. exact Hminus. }
  unfold Number.parseInt.
  change ((d :: ds) ++ t) with (d :: (ds ++ t)).
  rewrite !U, !N.
  change (d :: (ds ++ t)) with ((d :: ds) ++ t).
  rewrite (digits_prefix_app (d :: ds) t Hall Ht).
  pose proof (digits_prefix_app (d :: ds) [] Hall I) as E.
  rewrite app_nil_r in E. rewrite E. reflexivity.
Qed.

Lemma diagnostic_range_congruence (metricType : option jsstring) (c : Commander.t)
    (s s' e e' : option jsstring) :
  truthy s = truthy s' -> parses s = parses s' ->
  truthy e = truthy e' -> parses e = parses e' ->
  diagnostic metricType (Commander.with_range c s e)
  = diagnostic metricType (Commander.with_range c s' e').
Proof.
  intros Ts Ps Te Pe. unfold diagnostic.
  change (chosen_metric metricType (Commander.with_range c s e))
    with (chosen_metric metricType c).
  change (chosen_metric metricType (Commander.with_range c s' e'))
    with (chosen_metric metricType c).
  destruct (chosen_metric metricType c) as [m|]; [|reflexivity].
  unfold required.
  change (Commander.get (Commander.with_range c s e) m) with (Commander.get c m).
  change (Commander.get (Commander.with_range c s' e') m) with (Commander.get c m).
  cbn [Commander.with_range Commander.host Commander.port Commander.accessKey
       Commander.secretKey Commander.metric Commander.recent Commander.start
       Commander.end_].
  rewrite !first_missing_app.
  destruct (Commander.recent c); [reflexivity|].
  cbn [first_missing]. rewrite Ts, Ps, Te, Pe. reflexivity.
Qed.

(** [listMetrics] uses [--start] and [--end] through two things only:
    whether the value is empty, and the Number it parses to. *)
Lemma listMetrics_range_congruence (metricType : option jsstring) (c : Commander.t)
    (s s' e e' : option jsstring) :
  truthy s = truthy s' ->
  Number.parseInt (ToString s) = Number.parseInt (ToString s') ->
  truthy e = truthy e' ->
  Number.parseInt (ToString e) = Number.parseInt (ToString e') ->
  listMetrics metricType (Commander.with_range c s e)
  = listMetrics metricType (Commander.with_range c s' e').
Proof.
  intros Ts Ps Te Pe.
  rewrite !listMetrics_diagnostic.
  rewrite (diagnostic_range_congruence metricType c s s' e e')
    by (assumption || (unfold parses; congruence)).
  destruct (diagnostic metricType (Commander.with_range c s' e')); [reflexivity|].
  f_equal. unfold query_of.
  change (Commander.get (Commander.with_range c s e)) with (Commander.get c).
  change (Commander.get (Commander.with_range c s' e')) with (Commander.get c).
  cbn [Commander.with_range Commander.host Commander.port Commander.accessKey
       Commander.secretKey Commander.metric Commander.recent Commander.start
       Commander.end_ Commander.verbose Commander.ssl].
  rewrite Ps, Te, Pe. reflexivity.
Qed.

(** X8.  Only the digits a value of [--start] or [--end] begins with
    count: text that follows them is dropped without a diagnostic, so
    [--start 100abc] runs as [--start 100] does. *)
Theorem trailing_text_ignored (metricType : option jsstring) (c : Commander.t)
    (ds t : jsstring) (other : option jsstring) :
  ds <> [] ->
  forallb is_digit ds = true ->
  match t with
  | [] => True
  | x :: _ => is_digit x = false
  end ->
  listMetrics metricType (Commander.with_range c (Some (ds ++ t)) other)
  = listMetrics metricType (Commander.with_range c (Some ds) other)
  /\ listMetrics metricType (Commander.with_range c other (Some (ds ++ t)))
     = listMetrics metricType (Commander.with_range c other (Some ds)).
Proof.
  intros Hne Hds Ht.
  assert (T : truthy (Some (ds ++ t)) = truthy (Some ds)).
  { destruct ds; [contradiction|reflexivity]. }
  pose proof (parseInt_leading_digits ds t Hne Hds Ht) as P.
  split; apply listMetrics_range_congruence; assumption || reflexivity.
Qed.

Lemma trailing_text_ignored_witness :
  listMetrics None (Commander.with_range example_options (Some (js "100 seconds")) None)
  = listMetrics None (Commander.with_range example_options (Some (js "100")) None).
Proof.
  refine (proj1 (trailing_text_ignored None example_options (js "100") (js " seconds")
                   None _ _ _)).
  - discriminate.
  - reflexivity.
  - reflexivity.
Defined.

(** ** The response callback *)

Lemma join_nil_app (l1 l2 : list jsstring) :
  join [] (l1 ++ l2) = join [] l1 ++ join [] l2.
Proof.
  induction l1 as [|a l1 IH]; [reflexivity|].
  destruct l1 as [|b l1].
  - cbn [app join]. destruct l2 as [|c l2]; [now rewrite app_nil_r|reflexivity].
  - change ((a :: b :: l1) ++ l2) with (a :: ((b :: l1) ++ l2)).
    rewrite (join_cons [] a ((b :: l1) ++ l2)) by discriminate.
    rewrite (join_cons [] a (b :: l1)) by discriminate.
    rewrite IH. cbn [app]. now rewrite app_assoc.
Qed.

Lemma join_nil_single (a : jsstring) : join [] [a] = a.
Proof. reflexivity. Qed.

(** X9.  The callback goes by the body as a whole, not by the chunks it
    came in: the response is handled as if the body had come in one
    piece, and it makes no difference where a chunk is cut in two. *)
Theorem chunk_boundaries_irrelevant (verbose : bool) (code : Z) (headers : obj jsstring)
    (before after : list jsstring) (a b : jsstring) :
  on_response verbose
    {| statusCode := code; responseHeaders := headers;
       chunks := before ++ [a; b] ++ after |}
  = on_response verbose
      {| statusCode := code; responseHeaders := headers;
         chunks := before ++ [a ++ b] ++ after |}
  /\ on_response verbose
       {| statusCode := code; responseHeaders := headers;
          chunks := before ++ [a; b] ++ after |}
     = on_response verbose
         {| statusCode := code; responseHeaders := headers;
            chunks := [join [] before ++ a ++ b ++ join [] after] |}.
Proof.
  assert (E1 : join [] (before ++ [a; b] ++ after)
               = join [] before ++ a ++ b ++ join [] after).
  { rewrite !join_nil_app. cbn [join app]. now rewrite <- app_assoc. }
  assert (E2 : join [] (before ++ [a ++ b] ++ after)
               = join [] before ++ a ++ b ++ join [] after).
  { rewrite !join_nil_app, join_nil_single. now rewrite <- app_assoc. }
  unfold on_response. cbn [statusCode responseHeaders chunks].
  rewrite E1, E2, join_nil_single. split; reflexivity.
Qed.

(** X10.  Every completed response ends the process; the callback never
    returns and never touches the transport again.  The process exits
    with code 0 exactly when the body parses and the status code is in
    [200, 300), and only then is anything written to the standard
    output (the printed body, then a newline); it exits with code 1 when
    the body parses and the status code is outside; it dies of the
    SyntaxError when the body does not parse. *)
Theorem response_outcome (verbose : bool) (r : response) :
  result (on_response verbose r)
  = match JSON_parse (join [] (chunks r)) with
    | None => Throw SyntaxError
    | Some _ =>
        if (200 <=? statusCode r) && (statusCode r <? 300) then Exit 0 else Exit 1
    end
  /\ stdout_writes (trace (on_response verbose r))
     = match JSON_parse (join [] (chunks r)) with
       | None => []
       | Some v =>
           if (200 <=? statusCode r) && (statusCode r <? 300)
           then [JSON_stringify_pretty v; [10]]
           else []
       end
  /\ (result (on_response verbose r) = Exit 0 <->
      (exists v, JSON_parse (join [] (chunks r)) = Some v)
      /\ 200 <= statusCode r < 300)
  /\ (forall a, result (on_response verbose r) <> Return a)
  /\ filter is_network_event (trace (on_response verbose r)) = [].
Proof.
  unfold on_response.
  destruct (JSON_parse (join [] (chunks r))) as [v|].
  - destruct ((200 <=? statusCode r) && (statusCode r <? 300)) eqn:E.
    + apply andb_prop in E as [E1 E2]. apply Z.leb_le in E1. apply Z.ltb_lt in E2.
      destruct verbose; repeat split; try reflexivity; try discriminate;
        try lia; eauto.
    + destruct verbose; repeat split; try reflexivity; try discriminate;
        try (intros (_ & H1 & H2);
             apply Z.leb_le in H1; apply Z.ltb_lt in H2;
             rewrite H1, H2 in E; discriminate).
  - destruct verbose; repeat split; try reflexivity; try discriminate;
      try (intros ((v & H) & _); discriminate).
Qed.

(** ** Signs and sizes of [--start] *)

Lemma digits_prefix_all (ds : jsstring) :
  forallb is_digit ds = true -> Number.digits_prefix ds = ds.
Proof.
  intros H. pose proof (digits_prefix_app ds [] H I) as E.
  now rewrite app_nil_r in E.
Qed.

Lemma parseInt_digits (ds : jsstring) :
  ds <> [] -> forallb is_digit ds = true ->
  Number.parseInt ds = Number.of_ratio false (Number.digits_value ds) 1
  /\ Number.parseInt (45 :: ds) = Number.of_ratio true (Number.digits_value ds) 1.
Proof.
  intros Hne Hds.
  destruct ds as [|d ds]; [contradiction|].
  pose proof Hds as Hall. simpl in Hds. apply andb_prop in Hds as [Hd _].
  destruct (digit_is_plain d Hd) as (Hw & Hplus & Hminus).
  assert (U1 : Number.unsigned_part (d :: ds) = d :: ds).
  { unfold Number.unsigned_part. cbn [Number.trim_start].
    rewrite Hw, Hplus, Hminus. reflexivity. }
  assert (N1 : Number.is_negative (d :: ds) = false).
  { unfold Number.is_negative. cbn [Number.trim_start]. rewrite Hw. exact Hminus. }
  assert (U2 : Number.unsigned_part (45 :: d :: ds) = d :: ds) by reflexivity.
  assert (N2 : Number.is_negative (45 :: d :: ds) = true) by reflexivity.
  unfold Number.parseInt.
  rewrite U1, U2, N1, N2, (digits_prefix_all (d :: ds) Hall). split; reflexivity.
Qed.

Lemma of_ratio_sign_truthy (n : Z) :
  Number.to_boolean (Number.of_ratio true n 1)
  = Number.to_boolean (Number.of_ratio false n 1).
Proof.
  unfold Number.of_ratio. destruct (n =? 0); [reflexivity|].
  destruct (if Number.ratio_ge_pow2 n 1 (Z.log2 n - Z.log2 1) then _ else _);
    try reflexivity.
  all: match goal with
       | |- context [if ?b then (_, _) else (_, _)] => destruct b
       end;
    match goal with
    | |- context [971 <? ?x] => destruct (971 <? x)
    end; reflexivity.
Qed.

Lemma of_ratio_overflow (neg : bool) (n : Z) :
  2 ^ 1024 <= n -> Number.of_ratio neg n 1 = Number.Inf neg.
Proof.
  intros Hn.
  assert (Hpos : 0 < n) by (pose proof (Z.pow_pos_nonneg 2 1024); lia).
  assert (Hlog : 1024 <= Z.log2 n).
  { rewrite <- (Z.log2_pow2 1024) by lia. now apply Z.log2_le_mono. }
  pose proof (Z.log2_spec n Hpos) as [Hlo _].
  unfold Number.of_ratio.
  destruct (n =? 0) eqn:E; [apply Z.eqb_eq in E; lia|].
  change (Z.log2 1) with 0. rewrite Z.sub_0_r.
  unfold Number.ratio_ge_pow2.
  destruct (0 <=? Z.log2 n) eqn:E0; [|apply Z.leb_gt in E0; lia].
  destruct (1 * 2 ^ Z.log2 n <=? n) eqn:E1; [|apply Z.leb_gt in E1; lia].
  rewrite Z.max_l by lia.
  match goal with
  | |- context [if ?b then (_, _) else (_, _)] => destruct b
  end.
  - destruct (971 <? Z.log2 n - 52 + 1) eqn:E2; [reflexivity|].
    apply Z.ltb_ge in E2. lia.
  - destruct (971 <? Z.log2 n - 52) eqn:E2; [reflexivity|].
    apply Z.ltb_ge in E2. lia.
Qed.

(** X11.  A minus sign before the digits of [--start] passes every
    check the digits alone pass: the listing is sent, with the negative
    Number as the start of the time range. *)
Theorem minus_sign_accepted (metricType : option jsstring) (c : Commander.t)
    (ds : jsstring) (e : option jsstring) (tr : list event) (q : QueryRequest.t) :
  ds <> [] ->
  forallb is_digit ds = true ->
  Commander.recent c = false ->
  buildQueryRequest metricType (Commander.with_range c (Some ds) e) = (tr, Return q) ->
  exists q' rest,
    buildQueryRequest metricType (Commander.with_range c (Some (45 :: ds)) e)
    = ([], Return q')
    /\ listMetrics metricType (Commander.with_range c (Some (45 :: ds)) e) = send q'
    /\ QueryRequest.timeRange q
       = Number.of_ratio false (Number.digits_value ds) 1 :: rest
    /\ QueryRequest.timeRange q'
       = Number.of_ratio true (Number.digits_value ds) 1 :: rest.
Proof.
  intros Hne Hds Hrecent Hq.
  destruct (parseInt_digits ds Hne Hds) as [Ppos Pneg].
  assert (T : truthy (Some (45 :: ds)) = truthy (Some ds)).
  { destruct ds; [contradiction|reflexivity]. }
  assert (P : parses (Some (45 :: ds)) = parses (Some ds)).
  { unfold parses. cbn [ToString]. rewrite Ppos, Pneg. apply of_ratio_sign_truthy. }
  pose proof (diagnostic_range_congruence metricType c _ _ e e T P eq_refl eq_refl) as D.
  rewrite buildQueryRequest_diagnostic in Hq.
  rewrite listMetrics_diagnostic, buildQueryRequest_diagnostic, D.
  destruct (diagnostic metricType (Commander.with_range c (Some ds) e)); [discriminate|].
  injection Hq as <- <-.
  exists (query_of metricType (Commander.with_range c (Some (45 :: ds)) e)).
  exists (if truthy e then [Number.parseInt (ToString e)] else []).
  split; [reflexivity|]. split; [reflexivity|].
  unfold query_of.
  cbn [QueryRequest.timeRange Commander.with_range Commander.recent Commander.start
       Commander.end_ ToString].
  rewrite Hrecent, Ppos, Pneg. split; reflexivity.
Qed.

Lemma minus_sign_accepted_witness :
  exists q' rest,
    buildQueryRequest None
      (Commander.with_range example_options (Some (45 :: js "100")) None)
    = ([], Return q')
    /\ listMetrics None
         (Commander.with_range example_options (Some (45 :: js "100")) None)
       = send q'
    /\ QueryRequest.timeRange
         (query_of None (Commander.with_range example_options (Some (js "100")) None))
       = Number.of_ratio false (Number.digits_value (js "100")) 1 :: rest
    /\ QueryRequest.timeRange q'
       = Number.of_ratio true (Number.digits_value (js "100")) 1 :: rest.
Proof.
  assert (H : buildQueryRequest None
                (Commander.with_range example_options (Some (js "100")) None)
              = ([], Return (query_of None
                   (Commander.with_range example_options (Some (js "100")) None))))
    by (vm_compute; reflexivity).
  assert (Hne : js "100" <> []) by discriminate.
  exact (minus_sign_accepted None example_options (js "100") None _ _
           Hne eq_refl eq_refl H).
Defined.

Lemma accepted_metric (metricType : option jsstring) (c : Commander.t) :
  diagnostic metricType c = None ->
  QueryRequest.metric (query_of metricType c) = js "buckets"
  \/ QueryRequest.metric (query_of metricType c) = js "accounts".
Proof.
  unfold diagnostic.
  destruct (chosen_metric metricType c) as [m|] eqn:Hm; [|discriminate].
  intros _. pose proof (chosen_metric_allowed _ _ _ Hm) as Ha.
  apply chosen_metric_value in Hm. unfold query_of. cbn [QueryRequest.metric].
  now rewrite <- Hm.
Qed.

(** X12.  No bound is put on [--start]: digits that make an integer of
    [2^1024] or more parse to Infinity, which passes the check, and the
    listing is sent with [null] as the start of the time range. *)
Theorem overlong_start_sent_as_null (metricType : option jsstring) (c : Commander.t)
    (ds : jsstring) (e : option jsstring) (tr : list event) (q : QueryRequest.t) :
  ds <> [] ->
  forallb is_digit ds = true ->
  2 ^ 1024 <= Number.digits_value ds ->
  Commander.recent c = false ->
  buildQueryRequest metricType (Commander.with_range c (Some ds) e) = (tr, Return q) ->
  (exists rest, QueryRequest.timeRange q = Number.Inf false :: rest)
  /\ (truthy e = false ->
      written_bodies (trace (listMetrics metricType (Commander.with_range c (Some ds) e)))
      = [js "{" ++ quoted "timeRange" ++ js ":[null]," ++ quote (QueryRequest.metric q)
         ++ js ":" ++ JSON_stringify (JArr (map JStr (QueryRequest.resources q)))
         ++ js "}"]).
Proof.
  intros Hne Hds Hbig Hrecent Hq.
  destruct (parseInt_digits ds Hne Hds) as [Ppos _].
  rewrite (of_ratio_overflow false _ Hbig) in Ppos.
  pose proof (listMetrics_diagnostic metricType (Commander.with_range c (Some ds) e)) as E.
  rewrite buildQueryRequest_diagnostic in Hq.
  destruct (diagnostic metricType (Commander.with_range c (Some ds) e)) eqn:D;
    [discriminate|].
  injection Hq as <- <-.
  pose proof (accepted_metric _ _ D) as Hm.
  assert (Ht : QueryRequest.timeRange
                 (query_of metricType (Commander.with_range c (Some ds) e))
               = Number.Inf false
                 :: (if truthy e then [Number.parseInt (ToString e)] else [])).
  { unfold query_of.
    cbn [QueryRequest.timeRange Commander.with_range Commander.recent Commander.start
         Commander.end_ ToString].
    now rewrite Hrecent, Ppos. }
  split; [eexists; exact Ht|].
  intros He. rewrite E. unfold send. rewrite _listMetrics_body, Ht, He.
  change (QueryRequest.recent (query_of metricType (Commander.with_range c (Some ds) e)))
    with (Commander.recent c).
  rewrite Hrecent.
  destruct Hm as [-> | ->]; reflexivity.
Qed.

Lemma overlong_start_sent_as_null_witness :
  written_bodies
    (trace (listMetrics None
              (Commander.with_range example_options (Some (js "1" ++ Number.zeros 309))
                 None)))
  = [js "{" ++ quoted "timeRange" ++ js ":[null]," ++ quoted "buckets" ++ js ":["
     ++ quoted "b1" ++ js "," ++ quoted "b2" ++ js "]}"].
Proof.
  assert (H : buildQueryRequest None
                (Commander.with_range example_options
                   (Some (js "1" ++ Number.zeros 309)) None)
              = ([], Return (query_of None
                   (Commander.with_range example_options
                      (Some (js "1" ++ Number.zeros 309)) None))))
    by (vm_compute; reflexivity).
  assert (Hne : js "1" ++ Number.zeros 309 <> []) by discriminate.
  assert (Hds : forallb is_digit (js "1" ++ Number.zeros 309) = true)
    by (vm_compute; reflexivity).
  assert (Hbig : 2 ^ 1024 <= Number.digits_value (js "1" ++ Number.zeros 309))
    by (apply Z.leb_le; vm_compute; reflexivity).
  destruct (overlong_start_sent_as_null None example_options _ None _ _
              Hne Hds Hbig eq_refl H) as [_ Hbody].
  etransitivity; [exact (Hbody eq_refl)|]. vm_compute. reflexivity.
Defined.
